(** * A/B test decision engine (src/app.py): a shallow embedding

    The script is a single Streamlit page.  Its statistical core is
    embedded here as pure functions over a data frame:

    - a data frame is the list of its rows, in file order;
    - a column is the projection that reads one cell of a row, so
      [df[col]] is [map col df];
    - every cell of the group column holds a label: pandas leaves the
      rows with a missing group cell out of [groupby], and a table with
      such rows is outside this development;
    - numeric cells are exact rationals ([Q]), and sums, means and
      differences are computed exactly, where pandas rounds each
      operation to binary64; a float that is not a number is the extra
      value [nan];
    - [Series.quantile] of pandas and [mannwhitneyu] of scipy are
      parameters of the page.  [quantile] below is the exact reading of
      pandas' linear interpolation; it stands in for the parameter on
      the small tables, where cutting it to an integer gives what
      binary64 gives;
    - Python integers are [Z];
    - [st.slider] widens its range to hold its default, refuses a range
      of a single point and bounds beyond the browser's integers, and
      only returns positions of its range;
    - an uncaught exception or [st.stop()] ends the script: fallible
      steps return a [Result];
    - numpy's process-wide random generator is the sequence of raw
      draws it is going to produce together with a cursor into it;
    - [@st.cache_data] is the table of the results stored so far, keyed
      by the arguments of the call. *)

From Stdlib Require Import String ZArith QArith Qround Lia Bool Arith PeanoNat List.
From Stdlib Require Import Permutation Lqa Qabs.
Import ListNotations.

Local Open Scope Q_scope.

(** ** Numbers *)

(** Strict comparison of rationals as a boolean ([x < y] on floats). *)
Definition Qlt_bool (x y : Q) : bool := negb (Qle_bool y x).

(** A float: a rational or not-a-number. *)
Inductive num : Type :=
| nan : num
| fin (q : Q) : num.

(** [x > c] and [x < c] as Python evaluates them: false on [nan]. *)
Definition num_gt (x : num) (c : Q) : bool :=
  match x with
  | nan => false
  | fin q => Qlt_bool c q
  end.

Definition num_lt (x : num) (c : Q) : bool :=
  match x with
  | nan => false
  | fin q => Qlt_bool q c
  end.

(** The same comparisons as propositions. *)
Definition num_above (x : num) (c : Q) : Prop := exists q, x = fin q /\ c < q.
Definition num_below (x : num) (c : Q) : Prop := exists q, x = fin q /\ q < c.

(** ** Failures that end the script *)

Definition Label := string.

Inductive Failure : Type :=
| GroupCardinality (found : list Label)   (* st.error + st.stop, lines 118-120 *)
| KeyError (key : Label)                  (* series[label] on an absent label *)
| ValueError                              (* int(nan), lines 131-134 *)
| SliderRange                             (* st.slider refused its bounds *)
| RankTestRaised.                         (* stats.mannwhitneyu raised *)

Inductive Result (A : Type) : Type :=
| Ok (a : A)
| Failed (e : Failure).
Arguments Ok {A} a.
Arguments Failed {A} e.

Definition bindR {A B} (r : Result A) (k : A -> Result B) : Result B :=
  match r with
  | Ok a => k a
  | Failed e => Failed e
  end.

Notation "'let*' x ':=' r 'in' k" := (bindR r (fun x => k))
  (at level 10, x pattern, r at level 100, k at level 200).

(** ** Series helpers *)

Definition label_eqb (x y : Label) : bool := String.eqb x y.

Fixpoint mem (x : Label) (l : list Label) : bool :=
  match l with
  | [] => false
  | y :: t => label_eqb x y || mem x t
  end.

(** [Series.unique()]: the distinct values in order of first appearance.
    [seen] is the table of values already emitted. *)
Fixpoint unique_from (seen : list Label) (l : list Label) : list Label :=
  match l with
  | [] => []
  | x :: t =>
      if mem x seen then unique_from seen t
      else x :: unique_from (x :: seen) t
  end.

Definition unique (l : list Label) : list Label := unique_from [] l.

Definition Qsum (xs : list Q) : Q := fold_right Qplus 0 xs.

(** [Series.mean()] of a non-empty numeric series. *)
Definition mean (xs : list Q) : Q := Qsum xs / inject_Z (Z.of_nat (length xs)).

(** [int(x)]: truncation toward zero. *)
Definition int (x : Q) : Z := Z.quot (Qnum x) (Zpos (Qden x)).

(** [Series.sort_values()], by insertion. *)
Fixpoint insert_sorted (x : Q) (l : list Q) : list Q :=
  match l with
  | [] => [x]
  | y :: t => if Qle_bool x y then x :: y :: t else y :: insert_sorted x t
  end.

Definition sort_values (l : list Q) : list Q := fold_right insert_sorted [] l.

(** [Series.quantile(q)] with pandas' default linear interpolation between
    the two order statistics around position [q * (n - 1)]; [None] is the
    [nan] of an empty series. *)
Definition quantile (xs : list Q) (q : Q) : option Q :=
  match sort_values xs with
  | [] => None
  | (x0 :: _) as sorted =>
      let n := length sorted in
      let h := q * inject_Z (Z.of_nat (n - 1)) in
      let lo := Z.to_nat (Qfloor h) in
      let hi := Nat.min (lo + 1) (n - 1) in
      let a := nth lo sorted x0 in
      let b := nth hi sorted x0 in
      Some (a + (h - inject_Z (Z.of_nat lo)) * (b - a))
  end.

(** [Series.max()] and [Series.min()]; [None] is the [nan] of an empty
    series. *)
Definition series_max (xs : list Q) : option Q :=
  match xs with
  | [] => None
  | x :: t => Some (fold_left (fun m y => if Qlt_bool m y then y else m) t x)
  end.

Definition series_min (xs : list Q) : option Q :=
  match xs with
  | [] => None
  | x :: t => Some (fold_left (fun m y => if Qlt_bool y m then y else m) t x)
  end.

(** The [min_value=], [max_value=] and [value=] arguments of the slider
    (lines 132-134); [q99] is what [Series.quantile(0.99)] returned,
    [None] for [nan]. *)
Definition slider_args (q99 : option Q) (xs : list Q) : Result (Z * Z * Z) :=
  match q99, series_min xs, series_max xs with
  | Some q99, Some mn, Some mx =>
      Ok (int mn, int mx,
          if Qlt_bool (inject_Z 3000) mx then 3000%Z else int q99)
  | _, _, _ => Failed ValueError
  end.

(** The largest integer that the browser's numbers hold exactly,
    [2^53 - 1]. *)
Definition js_max_safe : Z := 9007199254740991.

Definition js_int (n : Z) : bool :=
  ((- js_max_safe <=? n) && (n <=? js_max_safe))%Z.

(** [st.slider(label, min_value, max_value, value)] on integers.  The
    widget widens its range until it holds [value], refuses a range of
    a single point and bounds that are not browser integers, and returns
    the position the user chose, or [value] as long as the slider has not
    been moved.  A position outside the range cannot be chosen; the model
    answers [value] for it. *)
Definition st_slider (min_value max_value value : Z) (moved : option Z)
  : Result Z :=
  let min_value := Z.min min_value max_value in
  let max_value := Z.max min_value max_value in
  let min_value := Z.min value min_value in
  let max_value := Z.max value max_value in
  if ((min_value =? max_value) || negb (js_int min_value && js_int max_value))%Z
  then Failed SliderRange
  else Ok (match moved with
           | Some t =>
               if ((min_value <=? t) && (t <=? max_value))%Z then t else value
           | None => value
           end).

(** [series[key]] on a series indexed by labels. *)
Definition getitem (s : list (Label * Q)) (key : Label) : Result Q :=
  match find (fun p => label_eqb (fst p) key) s with
  | Some p => Ok (snd p)
  | None => Failed (KeyError key)
  end.

(** ** Decision rules (lines 176-184 and 198-201) *)

Definition indicator (b : bool) : Q := if b then 1 else 0.

(** [(boot_df['difference'] > 0).mean()]; the mean of no value is [nan]. *)
Definition prob_a_better (differences : list Q) : num :=
  match differences with
  | [] => nan
  | _ => fin (mean (map (fun d => indicator (Qlt_bool 0 d)) differences))
  end.

Inductive Verdict : Type := A_WINS | B_WINS | INCONCLUSIVE.

(** The [if / elif / else] on [prob_a_better]. *)
Definition recommendation (prob : num) : Verdict :=
  if num_gt prob (95 # 100) then A_WINS
  else if num_lt prob (5 # 100) then B_WINS
  else INCONCLUSIVE.

(** The [if u_pval < 0.05] of the engagement analysis. *)
Definition engagement_significant (u_pval : num) : bool :=
  num_lt u_pval (5 # 100).

(** ** The random generator *)

(** The draws the process-wide generator will produce, and how many of
    them have been consumed. *)
Record Generator : Type := { tape : nat -> nat; pos : nat }.

Definition advance (n : nat) (g : Generator) : Generator :=
  {| tape := tape g; pos := pos g + n |}.

(** [n] row positions drawn uniformly from [range(n)], with replacement. *)
Definition draw_positions (n : nat) (g : Generator) : list nat :=
  map (fun k => tape g (pos g + k) mod n)%nat (seq 0 n).

Section Frame.

(** The rows of the uploaded table and the three selected columns. *)
Context {Row : Type}.
Variable Row_eq_dec : forall x y : Row, {x = y} + {x <> y}.

(** The names of the group column and of the metric column: the strings
    that [run_bootstrapping] is called with, and that its cache hashes. *)
Variable group_name : string.
Variable metric_name : string.

(** What [df[name]] reads in a row, for the three selected names. *)
Variable group_col : Row -> Label.
Variable metric_col : Row -> Q.
Variable continuous_col : Row -> Q.

(** [Series.quantile(q)] of pandas, which interpolates in binary64;
    [None] is the [nan] of an empty series. *)
Variable Series_quantile : list Q -> Q -> option Q.

(** [scipy.stats.mannwhitneyu(x, y)]: the statistic and the p-value, or
    [None] when the library raises. *)
Variable mannwhitneyu : list Q -> list Q -> option (num * num).

Definition DataFrame := list Row.

(** *** Group validation (lines 117-123) *)

Definition unique_groups (df_raw : DataFrame) : list Label :=
  unique (map group_col df_raw).

Definition validate_groups (df_raw : DataFrame) : Result (Label * Label) :=
  match unique_groups df_raw with
  | [group_a; group_b] => Ok (group_a, group_b)
  | found => Failed (GroupCardinality found)
  end.

(** *** Outlier filter (lines 129-138) *)

Definition threshold_slider (df_raw : DataFrame) (moved : option Z)
  : Result Z :=
  let q99 := Series_quantile (map continuous_col df_raw) (99 # 100) in
  let* (min_value, max_value, value) :=
    slider_args q99 (map continuous_col df_raw) in
  st_slider min_value max_value value moved.

(** [df_raw[df_raw[continuous_col] < threshold].copy()] *)
Definition df_clean (df_raw : DataFrame) (threshold : Z) : DataFrame :=
  filter (fun r => Qlt_bool (continuous_col r) (inject_Z threshold)) df_raw.

(** [df_raw.shape[0] - df_clean.shape[0]] *)
Definition removed_count (df_raw : DataFrame) (threshold : Z) : Z :=
  (Z.of_nat (length df_raw) - Z.of_nat (length (df_clean df_raw threshold)))%Z.

(** *** Per-group means *)

(** [df[df[group_col] == g]] *)
Definition group_rows (g : Label) (df : DataFrame) : DataFrame :=
  filter (fun r => label_eqb (group_col r) g) df.

(** [df.groupby(group_col)[metric_col].mean()]: one entry per label that
    occurs in [df]. *)
Definition groupby_mean (df : DataFrame) : list (Label * Q) :=
  map (fun g => (g, mean (map metric_col (group_rows g df))))
      (unique (map group_col df)).

(** *** Bootstrap (lines 47-63) *)

(** [df.sample(frac=1, replace=True)] *)
Definition sample (df : DataFrame) (g : Generator) : DataFrame * Generator :=
  (flat_map (fun i => match nth_error df i with
                      | Some r => [r]
                      | None => []
                      end)
            (draw_positions (length df) g),
   advance (length df) g).

(** The body of one round of the loop: the difference of this resample. *)
Definition boot_diff (boot_sample : DataFrame) (group_a group_b : Label)
  : Result Q :=
  let boot_means := groupby_mean boot_sample in
  let* mean_a := getitem boot_means group_a in
  let* mean_b := getitem boot_means group_b in
  Ok (mean_a - mean_b).

(** [for i in range(iterations)], with [boot_diffs] as accumulator. *)
Fixpoint boot_loop (iterations : nat) (df : DataFrame)
    (group_a group_b : Label) (boot_diffs : list Q) (g : Generator)
  : Result (list Q) * Generator :=
  match iterations with
  | O => (Ok boot_diffs, g)
  | S rest =>
      let (boot_sample, g1) := sample df g in
      match boot_diff boot_sample group_a group_b with
      | Ok diff => boot_loop rest df group_a group_b (boot_diffs ++ [diff]) g1
      | Failed e => (Failed e, g1)
      end
  end.

(** The function as written, without its decorator. *)
Definition run_bootstrapping_body (df : DataFrame)
    (group_a group_b : Label) (iterations : nat) (g : Generator)
  : Result (list Q) * Generator :=
  boot_loop iterations df group_a group_b [] g.

(** [@st.cache_data]: results are stored under the arguments of the
    call, [(df, group_col, metric_col, group_a, group_b, iterations)]. *)
Definition CacheKey : Type :=
  DataFrame * string * string * Label * Label * nat.

Definition CacheKey_eq_dec (x y : CacheKey) : {x = y} + {x <> y}.
Proof.
  repeat decide equality; try apply (list_eq_dec Row_eq_dec);
    apply Ascii.ascii_dec.
Defined.

Record Session : Type :=
  { rng : Generator; cache : list (CacheKey * list Q) }.

Fixpoint cache_lookup (k : CacheKey) (c : list (CacheKey * list Q))
  : option (list Q) :=
  match c with
  | [] => None
  | (k', v) :: t => if CacheKey_eq_dec k k' then Some v else cache_lookup k t
  end.

Definition run_bootstrapping (df : DataFrame) (group_a group_b : Label)
    (iterations : nat) (s : Session) : Result (list Q) * Session :=
  let key := (df, group_name, metric_name, group_a, group_b, iterations) in
  match cache_lookup key (cache s) with
  | Some stored => (Ok stored, s)
  | None =>
      match run_bootstrapping_body df group_a group_b iterations (rng s) with
      | (Ok boot_df, g') =>
          (Ok boot_df, {| rng := g'; cache := (key, boot_df) :: cache s |})
      | (Failed e, g') => (Failed e, {| rng := g'; cache := cache s |})
      end
  end.

Definition default_iterations : nat := 1000.

(** *** The page (lines 116-201) *)

Record Report : Type :=
  { group_a : Label;
    group_b : Label;
    threshold : Z;
    cleaned_size : nat;
    removed : Z;
    size_a : nat;
    size_b : nat;
    rate_a : Q;
    rate_b : Q;
    raw_diff : Q;
    boot_df : list Q;
    probability_a_better : num;
    verdict : Verdict;
    u_stat : num;
    u_pval : num;
    significant : bool }.

(** The raw rates of lines 153-154. *)
Definition raw_rates (clean : DataFrame) (a b : Label) : Result (Q * Q) :=
  let rates := groupby_mean clean in
  let* ra := getitem rates a in
  let* rb := getitem rates b in
  Ok (ra, rb).

Definition rank_test (clean : DataFrame) (a b : Label) : Result (num * num) :=
  match mannwhitneyu (map continuous_col (group_rows a clean))
                     (map continuous_col (group_rows b clean)) with
  | Some r => Ok r
  | None => Failed RankTestRaised
  end.

(** One run of the script on an uploaded table; [moved] is the position
    the user gave the slider, if any. *)
Definition analyse (df_raw : DataFrame) (moved : option Z) (s : Session)
  : Result Report * Session :=
  match validate_groups df_raw with
  | Failed e => (Failed e, s)
  | Ok (a, b) =>
  match threshold_slider df_raw moved with
  | Failed e => (Failed e, s)
  | Ok t =>
  let clean := df_clean df_raw t in
  match raw_rates clean a b with
  | Failed e => (Failed e, s)
  | Ok (ra, rb) =>
  match run_bootstrapping clean a b default_iterations s with
  | (Failed e, s1) => (Failed e, s1)
  | (Ok boot, s1) =>
  let prob := prob_a_better boot in
  match rank_test clean a b with
  | Failed e => (Failed e, s1)
  | Ok (u, p) =>
      (Ok {| group_a := a;
             group_b := b;
             threshold := t;
             cleaned_size := length clean;
             removed := removed_count df_raw t;
             size_a := length (group_rows a clean);
             size_b := length (group_rows b clean);
             rate_a := ra;
             rate_b := rb;
             raw_diff := ra - rb;
             boot_df := boot;
             probability_a_better := prob;
             verdict := recommendation prob;
             u_stat := u;
             u_pval := p;
             significant := engagement_significant p |}, s1)
  end end end end end.

End Frame.

Arguments DataFrame Row : clear implicits.

(** ** The table the page expects (lines 213-219) *)

Record Player : Type :=
  { userid : Z;
    version : Label;
    sum_gamerounds : Q;
    retention_1 : Q;
    retention_7 : Q }.

Definition Q_eq_dec (x y : Q) : {x = y} + {x <> y}.
Proof. decide equality; [apply Pos.eq_dec | apply Z.eq_dec]. Defined.

Definition Player_eq_dec (x y : Player) : {x = y} + {x <> y}.
Proof.
  decide equality; try apply Q_eq_dec; [apply string_dec | apply Z.eq_dec].
Defined.

Definition player (id : Z) (v : Label) (rounds : Z) (kept : Z) : Player :=
  {| userid := id; version := v; sum_gamerounds := inject_Z rounds;
     retention_1 := inject_Z kept; retention_7 := inject_Z kept |}.

(** A generator that hands out 0, 1, 2, ... *)
Definition counting : Generator := {| tape := fun k => k; pos := 0 |}.

(** A generator that only ever hands out 0. *)
Definition stuck : Generator := {| tape := fun _ => 0%nat; pos := 0 |}.

(** A session just started: nothing cached yet. *)
Definition fresh (g : Generator) : Session (Row := Player) :=
  {| rng := g; cache := [] |}.

(** A rank test that refuses an empty sample and is otherwise a stand-in. *)
Definition mwu_stub (x y : list Q) : option (num * num) :=
  match x, y with
  | [], _ | _, [] => None
  | _, _ => Some (fin 0, fin 1)
  end.

(** A rank test that answers [nan] whatever it is given. *)
Definition mwu_nan (x y : list Q) : option (num * num) := Some (nan, nan).

(** Small tables in that format. *)
Definition gate_30 : Label := "gate_30"%string.
Definition gate_40 : Label := "gate_40"%string.
Definition gate_50 : Label := "gate_50"%string.

Definition two_players : list Player :=
  [player 1 gate_30 10 1; player 2 gate_40 20 0].

Definition four_players : list Player :=
  [player 1 gate_30 10 1; player 2 gate_30 12 0;
   player 3 gate_40 20 1; player 4 gate_40 25 0].

Definition three_gates : list Player :=
  [player 1 gate_30 10 1; player 2 gate_40 20 0; player 3 gate_50 5000 1].

(** Four rows that pass the default threshold and one that does not. *)
Definition five_players : list Player :=
  [player 1 gate_30 10 1; player 2 gate_30 12 1;
   player 3 gate_40 20 1; player 4 gate_40 25 0;
   player 5 gate_40 5000 1].


(** Counts like [counting], except that every draw at a position that is
    1 modulo 4 is 0. *)
Definition skewed : Generator :=
  {| tape := fun k => if (k mod 4 =? 1)%nat then 0%nat else k; pos := 0 |}.

(** Agrees with [counting] on the first eight draws only. *)
Definition counting_then_stuck : Generator :=
  {| tape := fun k => if (k <? 8)%nat then k else 0%nat; pos := 0 |}.

(** ** Column preselection (lines 73-76 and 103-114) *)

Definition default_group : string := "version"%string.
Definition default_metrics : list string :=
  ["retention_1"%string; "retention_7"%string].
Definition default_continuous : string := "sum_gamerounds"%string.

(** The dtype of a column, as far as [select_dtypes] looks at it. *)
Inductive dtype : Type := numeric | boolean | object.

(** The header of the uploaded table: its column names with their dtypes,
    in file order. *)
Definition Header : Type := list (string * dtype).

(** [list(df_raw.columns)] *)
Definition columns (h : Header) : list string := map fst h.

(** [df_raw.select_dtypes(include=[np.number, bool]).columns.tolist()] *)
Definition numeric_cols (h : Header) : list string :=
  map fst (filter (fun c => match snd c with
                            | object => false
                            | _ => true
                            end) h).

(** [l.index(x)]: the first position of [x]; [None] is its [ValueError]. *)
Fixpoint list_index (x : string) (l : list string) : option nat :=
  match l with
  | [] => None
  | y :: t => if label_eqb y x then Some 0%nat
              else option_map S (list_index x t)
  end.

(** [options.index(name) if name in options else 0] *)
Definition preselected (name : string) (options : list string) : option nat :=
  if mem name options then list_index name options else Some 0%nat.

Definition g_idx (h : Header) : option nat :=
  preselected default_group (columns h).

Definition m_idx (h : Header) : option nat :=
  preselected (nth 1 default_metrics EmptyString) (numeric_cols h).

Definition c_idx (h : Header) : option nat :=
  preselected default_continuous (numeric_cols h).

(** ** The delta under group B's rate (line 160) *)

(** The number that is formatted, and whether a plus sign is written in
    front of it. *)
Definition rate_delta (raw_diff : Q) : bool * Q :=
  if Qlt_bool 0 raw_diff then (false, - raw_diff)
  else (true, Qabs raw_diff).

(** ** Vocabulary of the statements *)

(** [s] is obtained from [l] by deleting rows, the others keeping their
    order. *)
Inductive Subseq {A : Type} : list A -> list A -> Prop :=
| Subseq_nil : Subseq [] []
| Subseq_drop : forall x s l, Subseq s l -> Subseq s (x :: l)
| Subseq_keep : forall x s l, Subseq s l -> Subseq (x :: s) (x :: l).

(** The number of distinct labels of a column. *)
Definition distinct_count (l : list Label) : nat :=
  length (nodup string_dec l).

(** [g] labels at least one row of [df]. *)
Definition occurs {Row : Type} (group_col : Row -> Label) (g : Label)
    (df : list Row) : Prop :=
  exists r, In r df /\ group_col r = g.

(** The resample that round [i] of the bootstrap loop draws when the loop
    is entered with generator [g]. *)
Definition resample_at {Row : Type} (df : list Row) (g : Generator) (i : nat)
  : list Row :=
  fst (sample df (advance (i * length df) g)).

(** The mean of [metric_col] over the rows of [df] labelled [g]. *)
Definition group_mean {Row : Type} (group_col : Row -> Label)
    (metric_col : Row -> Q) (g : Label) (df : list Row) : Q :=
  mean (map metric_col (group_rows group_col g df)).





(** The number of strictly positive differences. *)
Definition count_positive (differences : list Q) : nat :=
  length (filter (fun d => Qlt_bool 0 d) differences).

(** Two generators hand out the same next [n] draws. *)
Definition same_draws (n : nat) (g1 g2 : Generator) : Prop :=
  forall k, (k < n)%nat -> tape g1 (pos g1 + k) = tape g2 (pos g2 + k).

(** * Properties *)

Lemma Qlt_bool_iff (x y : Q) : Qlt_bool x y = true <-> x < y.
Proof.
  unfold Qlt_bool. rewrite negb_true_iff. split; intro H.
  - apply Qnot_le_lt. intro Hle. apply Qle_bool_iff in Hle. congruence.
  - destruct (Qle_bool y x) eqn:E; [|reflexivity].
    apply Qle_bool_iff in E. exfalso. exact (Qlt_not_le _ _ H E).
Qed.

Lemma Qlt_bool_false_iff (x y : Q) : Qlt_bool x y = false <-> y <= x.
Proof.
  unfold Qlt_bool. rewrite negb_false_iff. apply Qle_bool_iff.
Qed.

Lemma Qlt_bool_negb_le (x y : Q) : Qlt_bool x y = negb (Qle_bool y x).
Proof. reflexivity. Qed.

(** ** Decision rules *)

Lemma num_gt_iff (x : num) (c : Q) : num_gt x c = true <-> num_above x c.
Proof.
  destruct x as [|q]; simpl.
  - split; [discriminate | intros (q & H & _); discriminate].
  - rewrite Qlt_bool_iff. split.
    + intro H. exists q. split; [reflexivity | exact H].
    + intros (q' & Heq & H). injection Heq as ->. exact H.
Qed.

Lemma num_lt_iff (x : num) (c : Q) : num_lt x c = true <-> num_below x c.
Proof.
  destruct x as [|q]; simpl.
  - split; [discriminate | intros (q & H & _); discriminate].
  - rewrite Qlt_bool_iff. split.
    + intro H. exists q. split; [reflexivity | exact H].
    + intros (q' & Heq & H). injection Heq as ->. exact H.
Qed.

Lemma above_not_below (x : num) :
  num_above x (95 # 100) -> num_below x (5 # 100) -> False.
Proof.
  intros (q & -> & Hq) (q' & Heq & Hq'). injection Heq as <-.
  assert (H : (5 # 100) < (95 # 100)) by reflexivity.
  apply (Qlt_irrefl q). apply (Qlt_trans _ _ _ Hq'). 
  exact (Qlt_trans _ _ _ H Hq).
Qed.

(** C3. The recommendation is A_WINS exactly when probability_a_better
    is strictly above 0.95, B_WINS exactly when it is strictly below 0.05
    and INCONCLUSIVE in every other case; the engagement flag is set
    exactly when the p-value is strictly below 0.05, whatever the
    probability is. *)
Theorem decision_rules (prob u_pval : num) :
  (recommendation prob = A_WINS <-> num_above prob (95 # 100)) /\
  (recommendation prob = B_WINS <-> num_below prob (5 # 100)) /\
  (recommendation prob = INCONCLUSIVE <->
     ~ num_above prob (95 # 100) /\ ~ num_below prob (5 # 100)) /\
  (engagement_significant u_pval = true <-> num_below u_pval (5 # 100)).
Proof.
  unfold recommendation, engagement_significant.
  pose proof (num_gt_iff prob (95 # 100)) as Hgt.
  pose proof (num_lt_iff prob (5 # 100)) as Hlt.
  pose proof (above_not_below prob) as Hex.
  destruct (num_gt prob (95 # 100)) eqn:Eg;
    destruct (num_lt prob (5 # 100)) eqn:El; repeat split;
    try discriminate; try tauto; try apply num_lt_iff;
    try (intro H; exfalso; tauto);
    try (intro H; apply Hgt in H; discriminate);
    try (intro H; apply Hlt in H; discriminate);
    try (intros [H1 H2]; exfalso; tauto).
Qed.

(** ** Outlier filter *)

Section FilterFacts.

Context {A : Type}.
Variable keep : A -> bool.

Lemma filter_Subseq (l : list A) : Subseq (filter keep l) l.
Proof.
  induction l as [|x l IH]; simpl.
  - constructor.
  - destruct (keep x); constructor; exact IH.
Qed.

Lemma Subseq_into_filter (s l : list A) :
  Subseq s l -> Forall (fun x => keep x = true) s -> Subseq s (filter keep l).
Proof.
  induction 1 as [|x s l Hs IH|x s l Hs IH]; intro Hall; simpl.
  - constructor.
  - destruct (keep x); [apply Subseq_drop|]; apply IH; exact Hall.
  - inversion Hall as [|? ? Hx Hrest]; subst.
    rewrite Hx. apply Subseq_keep. apply IH. exact Hrest.
Qed.

Lemma filter_all_kept (l : list A) :
  Forall (fun x => keep x = true) (filter keep l).
Proof.
  apply Forall_forall. intros x Hx. apply filter_In in Hx. tauto.
Qed.

Lemma filter_split_length (l : list A) :
  (length (filter keep l) + length (filter (fun x => negb (keep x)) l)
   = length l)%nat.
Proof.
  induction l as [|x l IH]; simpl; [reflexivity|].
  destruct (keep x); simpl; lia.
Qed.

Lemma filter_twice (l : list A) : filter keep (filter keep l) = filter keep l.
Proof.
  induction l as [|x l IH]; simpl; [reflexivity|].
  destruct (keep x) eqn:E; simpl; [rewrite E|]; congruence.
Qed.

End FilterFacts.

Section OutlierFilter.

Context {Row : Type}.
Variable continuous_col : Row -> Q.

Let below (threshold : Z) (r : Row) : Prop :=
  continuous_col r < inject_Z threshold.

(** C4. The cleaned table is a subsequence of the raw table, each of its
    rows is strictly below the threshold, and it contains every
    subsequence of the raw table with that property (so no row strictly
    below the threshold is lost and no row at or above it is kept); the
    removed count is the number of rows at or above the threshold, and
    it adds up with the cleaned size to the raw size. *)
Theorem outlier_filter_contract (df_raw : list Row) (threshold : Z) :
  let clean := df_clean continuous_col df_raw threshold in
  Subseq clean df_raw /\
  Forall (below threshold) clean /\
  (forall s, Subseq s df_raw -> Forall (below threshold) s -> Subseq s clean) /\
  removed_count continuous_col df_raw threshold
    = Z.of_nat (length (filter (fun r => Qle_bool (inject_Z threshold)
                                                  (continuous_col r)) df_raw)) /\
  (removed_count continuous_col df_raw threshold + Z.of_nat (length clean)
   = Z.of_nat (length df_raw))%Z.
Proof.
  unfold removed_count, df_clean; cbv zeta.
  set (keep := fun r => Qlt_bool (continuous_col r) (inject_Z threshold)).
  split; [apply filter_Subseq|].
  split.
  { eapply Forall_impl; [|apply filter_all_kept].
    intros r Hr. apply Qlt_bool_iff. exact Hr. }
  split.
  { intros s Hs Hall. apply Subseq_into_filter; [exact Hs|].
    eapply Forall_impl; [|exact Hall].
    intros r Hr. apply Qlt_bool_iff. exact Hr. }
  pose proof (filter_split_length keep df_raw) as Hlen.
  assert (Hext : filter (fun r => negb (keep r)) df_raw
                 = filter (fun r => Qle_bool (inject_Z threshold)
                                             (continuous_col r)) df_raw).
  { apply filter_ext. intro r. unfold keep, Qlt_bool.
    apply negb_involutive. }
  rewrite Hext in Hlen. split; lia.
Qed.

(** C8. Filtering a table that was already filtered with the same
    threshold gives that table back and removes no row. *)
Theorem outlier_filter_idempotent (df_raw : list Row) (threshold : Z) :
  let clean := df_clean continuous_col df_raw threshold in
  df_clean continuous_col clean threshold = clean /\
  removed_count continuous_col clean threshold = 0%Z.
Proof.
  unfold removed_count, df_clean; cbv zeta.
  rewrite filter_twice. split; [reflexivity | lia].
Qed.

End OutlierFilter.

(** ** Distinct labels in order of first appearance *)

Lemma mem_iff (x : Label) (l : list Label) : mem x l = true <-> In x l.
Proof.
  induction l as [|y l IH]; simpl.
  - split; [discriminate | tauto].
  - rewrite orb_true_iff, IH. unfold label_eqb. rewrite String.eqb_eq.
    split; intros [H|H]; auto.
Qed.

Lemma mem_false_iff (x : Label) (l : list Label) : mem x l = false <-> ~ In x l.
Proof.
  rewrite <- mem_iff. destruct (mem x l); split; congruence.
Qed.

Lemma unique_from_In (seen l : list Label) (x : Label) :
  In x (unique_from seen l) <-> In x l /\ ~ In x seen.
Proof.
  revert seen. induction l as [|y l IH]; intro seen; simpl.
  - tauto.
  - destruct (mem y seen) eqn:E.
    + apply mem_iff in E. rewrite IH. split.
      * intros [H1 H2]. auto.
      * intros [[->|H1] H2]; [contradiction | auto].
    + apply mem_false_iff in E. simpl. rewrite IH. simpl. split.
      * intros [->|[H1 H2]]; [auto|]. split; [auto|]. intro H. apply H2. auto.
      * intros [[->|H1] H2]; [auto|].
        destruct (string_dec y x) as [->|Hne]; [auto|].
        right. split; [exact H1|]. intros [H|H]; contradiction.
Qed.

Lemma unique_from_NoDup (seen l : list Label) : NoDup (unique_from seen l).
Proof.
  revert seen. induction l as [|y l IH]; intro seen; simpl.
  - constructor.
  - destruct (mem y seen); [apply IH|].
    constructor; [|apply IH].
    rewrite unique_from_In. simpl. intros [_ H]. apply H. auto.
Qed.

Lemma unique_In (l : list Label) (x : Label) : In x (unique l) <-> In x l.
Proof. unfold unique. rewrite unique_from_In. simpl. tauto. Qed.

Lemma unique_length (l : list Label) : length (unique l) = distinct_count l.
Proof.
  unfold distinct_count. apply Permutation_length.
  apply NoDup_Permutation.
  - apply unique_from_NoDup.
  - apply NoDup_nodup.
  - intro x. rewrite unique_In, nodup_In. tauto.
Qed.

(** The head of [unique_from seen l] is the first entry of [l] that has not
    been seen; what precedes it has been seen. *)
Lemma unique_from_cons (seen l : list Label) (x : Label) (u : list Label) :
  unique_from seen l = x :: u ->
  exists pre post,
    l = pre ++ x :: post /\ Forall (fun y => In y seen) pre /\
    ~ In x seen /\ u = unique_from (x :: seen) post.
Proof.
  revert seen. induction l as [|y l IH]; intro seen; simpl; [discriminate|].
  destruct (mem y seen) eqn:E.
  - intro H. destruct (IH _ H) as (pre & post & -> & Hpre & Hx & Hu).
    exists (y :: pre), post. repeat split; auto.
    constructor; [apply mem_iff; exact E | exact Hpre].
  - intro H. injection H as -> <-.
    exists [], l. repeat split; auto. apply mem_false_iff. exact E.
Qed.

Lemma unique_from_nil (seen l : list Label) :
  unique_from seen l = [] -> Forall (fun y => In y seen) l.
Proof.
  revert seen. induction l as [|y l IH]; intro seen; simpl; [constructor|].
  destruct (mem y seen) eqn:E; [|discriminate].
  intro H. constructor; [apply mem_iff; exact E | apply IH; exact H].
Qed.

Lemma Forall_In_singleton (a : Label) (l : list Label) :
  Forall (fun y => In y [a]) l -> l = repeat a (length l).
Proof.
  induction 1 as [|y l Hy _ IH]; simpl; [reflexivity|].
  destruct Hy as [<-|[]]. f_equal. exact IH.
Qed.

(** The shape of a column with exactly two distinct labels. *)
Lemma unique_pair (l : list Label) (a b : Label) :
  unique l = [a; b] ->
  a <> b /\
  exists k rest, l = repeat a (S k) ++ b :: rest /\
                 Forall (fun x => x = a \/ x = b) rest.
Proof.
  unfold unique. intro H.
  destruct (unique_from_cons _ _ _ _ H) as (pre & post & -> & Hpre & _ & Hu).
  destruct pre as [|p pre]; [|inversion Hpre as [|? ? []]].
  symmetry in Hu.
  destruct (unique_from_cons _ _ _ _ Hu) as (pre2 & post2 & -> & Hpre2 & Hb & Hu2).
  symmetry in Hu2. apply unique_from_nil in Hu2.
  split; [intros ->; apply Hb; simpl; auto|].
  exists (length pre2), post2. split.
  - simpl. f_equal. f_equal. apply Forall_In_singleton. exact Hpre2.
  - eapply Forall_impl; [|exact Hu2]. simpl. intros x [?|[?|[]]]; auto.
Qed.

Section GroupValidator.

Context {Row : Type}.
Variable group_col : Row -> Label.

(** C6. With exactly two distinct labels the validator returns them,
    group A being the label of the first rows and group B the first label
    that differs from it; with any other number of distinct labels it
    fails with the group-cardinality error, and the page stops there:
    no later step runs and the session is untouched. *)
Theorem group_validator (df_raw : list Row) :
  let labels := map group_col df_raw in
  (distinct_count labels = 2%nat ->
     exists a b k rest,
       validate_groups group_col df_raw = Ok (a, b) /\ a <> b /\
       labels = repeat a (S k) ++ b :: rest /\
       Forall (fun x => x = a \/ x = b) rest) /\
  (distinct_count labels <> 2%nat ->
     validate_groups group_col df_raw
     = Failed (GroupCardinality (unique labels)) /\
     forall Row_eq_dec group_name metric_name metric_col continuous_col
            Series_quantile mannwhitneyu moved s,
       analyse Row_eq_dec group_name metric_name group_col metric_col
               continuous_col Series_quantile mannwhitneyu df_raw moved s
       = (Failed (GroupCardinality (unique labels)), s)).
Proof.
  cbv zeta. split.
  - intro Hcount. rewrite <- unique_length in Hcount.
    unfold validate_groups, unique_groups.
    destruct (unique (map group_col df_raw)) as [|a [|b [|c u]]] eqn:E;
      try discriminate.
    destruct (unique_pair _ _ _ E) as (Hab & k & rest & Hl & Hrest).
    exists a, b, k, rest. auto.
  - intro Hcount. rewrite <- unique_length in Hcount.
    assert (Hv : validate_groups group_col df_raw
                 = Failed (GroupCardinality (unique (map group_col df_raw)))).
    { unfold validate_groups, unique_groups.
      destruct (unique (map group_col df_raw)) as [|a [|b [|c u]]];
        try reflexivity. simpl in Hcount. lia. }
    split; [exact Hv|]. intros. unfold analyse. rewrite Hv. reflexivity.
Qed.

End GroupValidator.

(** ** Per-group means *)

Section GroupMeans.

Context {Row : Type}.
Variable group_col : Row -> Label.
Variable metric_col : Row -> Q.

Lemma occurs_iff_mem (g : Label) (df : list Row) :
  occurs group_col g df <-> mem g (map group_col df) = true.
Proof.
  rewrite mem_iff, in_map_iff. unfold occurs. split.
  - intros (r & Hin & Hg). exists r. auto.
  - intros (r & Hg & Hin). exists r. auto.
Qed.

Lemma occurs_dec (g : Label) (df : list Row) :
  {occurs group_col g df} + {~ occurs group_col g df}.
Proof.
  destruct (mem g (map group_col df)) eqn:E.
  - left. apply occurs_iff_mem. exact E.
  - right. rewrite occurs_iff_mem. congruence.
Qed.

Lemma occurs_iff_rows (g : Label) (df : list Row) :
  occurs group_col g df <-> length (group_rows group_col g df) <> 0%nat.
Proof.
  unfold occurs, group_rows. split.
  - intros (r & Hin & Hg) Hlen. apply length_zero_iff_nil in Hlen.
    assert (H : In r (filter (fun r => label_eqb (group_col r) g) df)).
    { apply filter_In. split; [exact Hin|]. apply String.eqb_eq. exact Hg. }
    rewrite Hlen in H. exact H.
  - intro Hlen.
    destruct (filter (fun r => label_eqb (group_col r) g) df) as [|r l] eqn:E;
      [contradiction|].
    assert (H : In r (filter (fun r => label_eqb (group_col r) g) df))
      by (rewrite E; left; reflexivity).
    apply filter_In in H. destruct H as [Hin Hg].
    exists r. split; [exact Hin | apply String.eqb_eq; exact Hg].
Qed.

(** Looking a label up in a series built over a list of labels. *)
Lemma getitem_tabulate (F : Label -> Q) (labels : list Label) (g : Label) :
  getitem (map (fun k => (k, F k)) labels) g
  = if mem g labels then Ok (F g) else Failed (KeyError g).
Proof.
  unfold getitem. induction labels as [|k labels IH]; simpl; [reflexivity|].
  unfold label_eqb at 1 3. rewrite (String.eqb_sym g k).
  destruct (String.eqb k g) eqn:E; simpl.
  - apply String.eqb_eq in E. subst. reflexivity.
  - exact IH.
Qed.

Lemma mem_unique (g : Label) (l : list Label) : mem g (unique l) = mem g l.
Proof.
  destruct (mem g l) eqn:E.
  - apply mem_iff. apply unique_In. apply mem_iff. exact E.
  - apply mem_false_iff. rewrite unique_In. apply mem_false_iff. exact E.
Qed.

Lemma getitem_groupby_mean (df : list Row) (g : Label) :
  getitem (groupby_mean group_col metric_col df) g
  = if mem g (map group_col df)
    then Ok (group_mean group_col metric_col g df)
    else Failed (KeyError g).
Proof.
  unfold groupby_mean.
  rewrite (getitem_tabulate
             (fun k => mean (map metric_col (group_rows group_col k df)))).
  rewrite mem_unique. reflexivity.
Qed.

(** The difference of one resample: defined exactly when both groups
    occur in it, and then mean of A minus mean of B. *)
Lemma boot_diff_eq (boot_sample : list Row) (a b : Label) :
  boot_diff group_col metric_col boot_sample a b
  = if mem a (map group_col boot_sample) then
      if mem b (map group_col boot_sample) then
        Ok (group_mean group_col metric_col a boot_sample
            - group_mean group_col metric_col b boot_sample)
      else Failed (KeyError b)
    else Failed (KeyError a).
Proof.
  unfold boot_diff. rewrite !getitem_groupby_mean.
  destruct (mem a (map group_col boot_sample)); simpl; [|reflexivity].
  destruct (mem b (map group_col boot_sample)); reflexivity.
Qed.

Lemma raw_rates_eq (clean : list Row) (a b : Label) :
  raw_rates group_col metric_col clean a b
  = if mem a (map group_col clean) then
      if mem b (map group_col clean) then
        Ok (group_mean group_col metric_col a clean,
            group_mean group_col metric_col b clean)
      else Failed (KeyError b)
    else Failed (KeyError a).
Proof.
  unfold raw_rates. rewrite !getitem_groupby_mean.
  destruct (mem a (map group_col clean)); simpl; [|reflexivity].
  destruct (mem b (map group_col clean)); reflexivity.
Qed.

End GroupMeans.


(** ** Resampling *)

Lemma same_draws_positions (n m : nat) (g1 g2 : Generator) :
  same_draws n g1 g2 -> (m <= n)%nat ->
  map (fun k => tape g1 (pos g1 + k) mod n)%nat (seq 0 m)
  = map (fun k => tape g2 (pos g2 + k) mod n)%nat (seq 0 m).
Proof.
  intros H Hm. apply map_ext_in. intros k Hk. apply in_seq in Hk.
  rewrite H by lia. reflexivity.
Qed.

Lemma same_draws_split (n m : nat) (g1 g2 : Generator) :
  same_draws (n + m) g1 g2 ->
  same_draws n g1 g2 /\ same_draws m (advance n g1) (advance n g2).
Proof.
  intro H. split; intros k Hk.
  - apply H. lia.
  - simpl. rewrite <- !Nat.add_assoc. apply H. lia.
Qed.

Lemma same_draws_refl_shift (n i j : nat) (g : Generator) :
  same_draws n (advance i (advance j g)) (advance (j + i) g).
Proof.
  intros k _. simpl. f_equal. lia.
Qed.

Section Bootstrap.

Context {Row : Type}.
Variable Row_eq_dec : forall x y : Row, {x = y} + {x <> y}.
Variable group_col : Row -> Label.
Variable metric_col : Row -> Q.

Lemma sample_same (df : list Row) (g1 g2 : Generator) :
  same_draws (length df) g1 g2 -> fst (sample df g1) = fst (sample df g2).
Proof.
  intro H. unfold sample, draw_positions. simpl.
  rewrite (same_draws_positions _ _ _ _ H (Nat.le_refl _)). reflexivity.
Qed.

Lemma resample_at_first (df : list Row) (g : Generator) :
  resample_at df g 0 = fst (sample df g).
Proof.
  unfold resample_at. apply sample_same. intros k _. simpl. f_equal. lia.
Qed.

Lemma resample_at_next (df : list Row) (g : Generator) (i : nat) :
  resample_at df g (S i) = resample_at df (advance (length df) g) i.
Proof.
  unfold resample_at. apply sample_same. intros k _. simpl. f_equal. lia.
Qed.

(** A resample has as many rows as the table it is drawn from. *)
Lemma sample_length (df : list Row) (g : Generator) :
  length (fst (sample df g)) = length df.
Proof.
  unfold sample, draw_positions. simpl.
  assert (H : forall l : list nat,
             Forall (fun i => (i < length df)%nat) l ->
             length (flat_map (fun i => match nth_error df i with
                                        | Some r => [r]
                                        | None => []
                                        end) l) = length l).
  { induction 1 as [|i l Hi _ IH]; simpl; [reflexivity|].
    destruct (nth_error df i) eqn:E.
    - simpl. rewrite IH. reflexivity.
    - apply nth_error_None in E. lia. }
  rewrite H; [rewrite length_map, length_seq; reflexivity|].
  apply Forall_forall. intros i Hi. apply in_map_iff in Hi.
  destruct Hi as (k & <- & Hk). apply in_seq in Hk.
  apply Nat.mod_upper_bound. lia.
Qed.

(** The loop reads the generator only through the draws it consumes. *)
Lemma boot_loop_same (df : list Row) (a b : Label) (n : nat) :
  forall (acc : list Q) (g1 g2 : Generator),
    same_draws (n * length df) g1 g2 ->
    fst (boot_loop group_col metric_col n df a b acc g1)
    = fst (boot_loop group_col metric_col n df a b acc g2).
Proof.
  induction n as [|n IH]; intros acc g1 g2 H; simpl; [reflexivity|].
  simpl in H. apply same_draws_split in H. destruct H as [H0 Hrest].
  pose proof (sample_same df g1 g2 H0) as Hs. unfold sample in Hs. simpl in Hs.
  rewrite Hs.
  destruct (boot_diff group_col metric_col _ a b) as [d|e]; [|reflexivity].
  apply IH. exact Hrest.
Qed.

(** When every round finds both groups, the loop returns one difference
    per round, in order. *)
Lemma boot_loop_complete (df : list Row) (a b : Label) (n : nat) :
  forall (acc : list Q) (g : Generator),
    (forall i, (i < n)%nat ->
       exists d, boot_diff group_col metric_col (resample_at df g i) a b = Ok d) ->
    exists ds,
      fst (boot_loop group_col metric_col n df a b acc g) = Ok (acc ++ ds) /\
      length ds = n /\
      forall i d, nth_error ds i = Some d ->
        boot_diff group_col metric_col (resample_at df g i) a b = Ok d.
Proof.
  induction n as [|n IH]; intros acc g H.
  - exists []. simpl. rewrite app_nil_r. repeat split; auto.
    intros [|i] d; discriminate.
  - destruct (H 0%nat ltac:(lia)) as [d0 Hd0].
    rewrite resample_at_first in Hd0.
    destruct (IH (acc ++ [d0]) (advance (length df) g)) as (ds & Hrun & Hlen & Hnth).
    { intros i Hi. rewrite <- resample_at_next. apply H. lia. }
    exists (d0 :: ds). simpl. unfold sample in Hd0. simpl in Hd0. rewrite Hd0.
    rewrite Hrun, <- app_assoc. simpl. repeat split; auto.
    intros [|i] d Hi; simpl in Hi.
    + injection Hi as <-. rewrite resample_at_first. exact Hd0.
    + rewrite resample_at_next. apply Hnth. exact Hi.
Qed.

(** When some round misses a group, the loop ends in a [KeyError]. *)
Lemma boot_loop_aborts (df : list Row) (a b : Label) (n : nat) :
  forall (acc : list Q) (g : Generator),
    (exists i, (i < n)%nat /\
       (~ occurs group_col a (resample_at df g i) \/
        ~ occurs group_col b (resample_at df g i))) ->
    exists key, (key = a \/ key = b) /\
      fst (boot_loop group_col metric_col n df a b acc g) = Failed (KeyError key).
Proof.
  induction n as [|n IH]; intros acc g (i & Hi & Hmiss); [lia|].
  simpl.
  pose proof (boot_diff_eq group_col metric_col (fst (sample df g)) a b) as Hd.
  unfold sample in Hd. simpl in Hd. rewrite Hd. clear Hd.
  pose proof (resample_at_first df g) as H0. unfold sample in H0. simpl in H0.
  rewrite <- H0.
  destruct (mem a (map group_col (resample_at df g 0))) eqn:Ea;
    [|exists a; auto].
  destruct (mem b (map group_col (resample_at df g 0))) eqn:Eb;
    [|exists b; auto].
  destruct i as [|i].
  - exfalso. rewrite !occurs_iff_mem in Hmiss. destruct Hmiss; congruence.
  - apply IH. exists i. split; [lia|].
    rewrite <- !resample_at_next. exact Hmiss.
Qed.

End Bootstrap.


(** ** The probability that A is better *)

Lemma Qsum_indicator {A : Type} (f : A -> bool) (l : list A) :
  Qsum (map (fun d => indicator (f d)) l)
  == inject_Z (Z.of_nat (length (filter f l))).
Proof.
  induction l as [|x l IH]; simpl; [reflexivity|].
  destruct (f x); simpl indicator; rewrite IH.
  - cbn [length]. rewrite Nat2Z.inj_succ. unfold Z.succ.
    rewrite inject_Z_plus. ring.
  - ring.
Qed.

Lemma prob_a_better_ratio (differences : list Q) :
  differences <> [] ->
  exists p, prob_a_better differences = fin p /\
            p == inject_Z (Z.of_nat (count_positive differences))
                 / inject_Z (Z.of_nat (length differences)).
Proof.
  intro Hne. destruct differences as [|d ds]; [contradiction|].
  eexists. split; [reflexivity|].
  unfold mean, count_positive. rewrite length_map, Qsum_indicator. reflexivity.
Qed.

(** ** Group means without the functions of the page *)

Section LabelMeans.

Context {Row : Type}.
Variable group_col : Row -> Label.
Variable metric_col : Row -> Q.






End LabelMeans.

(** ** The rows of a resample *)




(** Read [DataFrame] and [CacheKey] as the list and tuple they are. *)
Ltac plain_frames := unfold CacheKey, DataFrame in *.

Section BootstrapRun.

Context {Row : Type}.
Variable Row_eq_dec : forall x y : Row, {x = y} + {x <> y}.
Variable group_name metric_name : string.
Variable group_col : Row -> Label.
Variable metric_col : Row -> Q.



Lemma run_bootstrapping_miss (df : list Row) (a b : Label) (iterations : nat)
    (s : Session) :
  cache_lookup Row_eq_dec (df, group_name, metric_name, a, b, iterations) (cache s) = None ->
  fst (run_bootstrapping Row_eq_dec group_name metric_name group_col metric_col df a b iterations s)
  = fst (run_bootstrapping_body group_col metric_col df a b iterations (rng s)).
Proof.
  intro H. unfold run_bootstrapping. cbv zeta. plain_frames. rewrite H.
  destruct (run_bootstrapping_body _ _ _ _ _ _ _) as [[d|e] g']; reflexivity.
Qed.

Lemma run_bootstrapping_hit (df : list Row) (a b : Label) (iterations : nat)
    (s : Session) (stored : list Q) :
  cache_lookup Row_eq_dec (df, group_name, metric_name, a, b, iterations) (cache s) = Some stored ->
  run_bootstrapping Row_eq_dec group_name metric_name group_col metric_col df a b iterations s
  = (Ok stored, s).
Proof.
  intro H. unfold run_bootstrapping. cbv zeta. plain_frames. rewrite H.
  reflexivity.
Qed.

(** C2 (as the code has it). The function has no seed argument: a call is
    answered from the cache of the session when its arguments are stored
    there, and otherwise from the draws of the process-wide generator.
    Two calls with the same arguments return the same distribution when
    they find the same thing in the cache and the generator hands both
    of them the same [iterations * N] draws. *)
Theorem bootstrap_same_draws_same_result
    (df : list Row) (a b : Label) (iterations : nat) (s1 s2 : Session) :
  cache_lookup Row_eq_dec (df, group_name, metric_name, a, b, iterations) (cache s1)
  = cache_lookup Row_eq_dec (df, group_name, metric_name, a, b, iterations) (cache s2) ->
  same_draws (iterations * length df) (rng s1) (rng s2) ->
  fst (run_bootstrapping Row_eq_dec group_name metric_name group_col metric_col df a b iterations s1)
  = fst (run_bootstrapping Row_eq_dec group_name metric_name group_col metric_col df a b iterations s2).
Proof.
  intros Hcache Hdraws.
  destruct (cache_lookup Row_eq_dec (df, group_name, metric_name, a, b, iterations) (cache s2))
    as [stored|] eqn:E2.
  - rewrite (run_bootstrapping_hit _ _ _ _ _ _ Hcache).
    rewrite (run_bootstrapping_hit _ _ _ _ _ _ E2). reflexivity.
  - rewrite (run_bootstrapping_miss _ _ _ _ _ Hcache).
    rewrite (run_bootstrapping_miss _ _ _ _ _ E2).
    apply boot_loop_same. exact Hdraws.
Qed.

End BootstrapRun.


(** *** Runs on the small tables *)




(** C2, counterexample.  Two sessions that have cached nothing run the
    function on the same table, columns, labels and iteration count;
    there is no seed to give them, their generators stand at different
    draws, and the distributions they return differ already in the
    first difference. *)
Lemma bootstrap_identical_inputs_differ :
  exists d1 rest1 d2 rest2,
    fst (run_bootstrapping Player_eq_dec "version"%string "retention_7"%string version retention_7 four_players
           gate_30 gate_40 2 (fresh counting))
    = Ok (d1 :: rest1) /\
    fst (run_bootstrapping Player_eq_dec "version"%string "retention_7"%string version retention_7 four_players
           gate_30 gate_40 2 (fresh skewed))
    = Ok (d2 :: rest2) /\
    ~ d1 == d2.
Proof.
  do 4 eexists. split; [vm_compute; reflexivity|].
  split; [vm_compute; reflexivity|].
  intro H. vm_compute in H. discriminate.
Qed.

Lemma bootstrap_same_draws_same_result_witness :
  fst (run_bootstrapping Player_eq_dec "version"%string "retention_7"%string version retention_7 four_players
         gate_30 gate_40 2 (fresh counting))
  = fst (run_bootstrapping Player_eq_dec "version"%string "retention_7"%string version retention_7 four_players
           gate_30 gate_40 2 (fresh counting_then_stuck)).
Proof.
  apply bootstrap_same_draws_same_result.
  - reflexivity.
  - intros k Hk. simpl in *.
    destruct (Nat.ltb_spec k 8) as [_|Hge]; [reflexivity | lia].
Defined.


(** ** The page as a whole *)



Section Page.

Context {Row : Type}.
Variable Row_eq_dec : forall x y : Row, {x = y} + {x <> y}.
Variable group_name metric_name : string.
Variable group_col : Row -> Label.
Variable metric_col : Row -> Q.
Variable continuous_col : Row -> Q.
Variable Series_quantile : list Q -> Q -> option Q.
Variable mannwhitneyu : list Q -> list Q -> option (num * num).

Let analyse_page := analyse Row_eq_dec group_name metric_name group_col metric_col
          continuous_col Series_quantile
                            mannwhitneyu.
Let clean_of (df_raw : list Row) (t : Z) := df_clean continuous_col df_raw t.


(** What a completed run of the page has gone through. *)
Lemma analyse_returned (df_raw : list Row) (moved : option Z) (s s' : Session)
    (rep : Report) :
  analyse_page df_raw moved s = (Ok rep, s') ->
  validate_groups group_col df_raw = Ok (group_a rep, group_b rep) /\
  threshold_slider continuous_col Series_quantile df_raw moved = Ok (threshold rep) /\
  raw_rates group_col metric_col (clean_of df_raw (threshold rep))
            (group_a rep) (group_b rep) = Ok (rate_a rep, rate_b rep) /\
  raw_diff rep = rate_a rep - rate_b rep /\
  run_bootstrapping Row_eq_dec group_name metric_name group_col metric_col
    (clean_of df_raw (threshold rep)) (group_a rep) (group_b rep)
    default_iterations s = (Ok (boot_df rep), s') /\
  cleaned_size rep = length (clean_of df_raw (threshold rep)) /\
  probability_a_better rep = prob_a_better (boot_df rep) /\
  verdict rep = recommendation (probability_a_better rep) /\
  significant rep = engagement_significant (u_pval rep).
Proof.
  unfold analyse_page, analyse, clean_of.
  destruct (validate_groups group_col df_raw) as [[a b]|e] eqn:Ev;
    [|discriminate].
  destruct (threshold_slider continuous_col Series_quantile df_raw moved) as [t|e] eqn:Et;
    [|discriminate].
  destruct (raw_rates group_col metric_col _ a b) as [[ra rb]|e] eqn:Er;
    [|discriminate].
  destruct (run_bootstrapping Row_eq_dec group_name metric_name group_col metric_col _ a b _ s)
    as [[boot|e] s1] eqn:Eb; [|discriminate].
  destruct (rank_test group_col continuous_col mannwhitneyu _ a b)
    as [[u p]|e] eqn:Eu; [|discriminate].
  intro H. injection H as <- <-. simpl. repeat split; assumption || reflexivity.
Qed.

Lemma validate_groups_returned (df_raw : list Row) (a b : Label) :
  validate_groups group_col df_raw = Ok (a, b) ->
  unique (map group_col df_raw) = [a; b].
Proof.
  unfold validate_groups, unique_groups.
  destruct (unique (map group_col df_raw)) as [|x [|y [|z u]]];
    intro H; inversion H; reflexivity.
Qed.

Lemma empty_group_not_mem (g : Label) (df : list Row) :
  length (group_rows group_col g df) = 0%nat ->
  mem g (map group_col df) = false.
Proof.
  intro H. destruct (mem g (map group_col df)) eqn:E; [|reflexivity].
  apply occurs_iff_mem in E. apply occurs_iff_rows in E. contradiction.
Qed.

(** C7 (as the code has it). The two labels are validated on the raw
    table, before the outlier filter runs: a raw table that fails the
    validation stops the page whatever the filter would leave, and the
    labels reported by a completed run are the first and the second
    label met in the raw table.  A completed run found both of them in
    the cleaned table as well. *)
Theorem groups_validated_on_raw
    (df_raw : list Row) (moved : option Z) (s : Session) :
  (forall e, validate_groups group_col df_raw = Failed e ->
     analyse_page df_raw moved s = (Failed e, s)) /\
  (forall rep s', analyse_page df_raw moved s = (Ok rep, s') ->
     validate_groups group_col df_raw = Ok (group_a rep, group_b rep) /\
     group_a rep <> group_b rep /\
     (exists k rest,
        map group_col df_raw
        = repeat (group_a rep) (S k) ++ group_b rep :: rest /\
        Forall (fun x => x = group_a rep \/ x = group_b rep) rest) /\
     cleaned_size rep = length (clean_of df_raw (threshold rep)) /\
     occurs group_col (group_a rep) (clean_of df_raw (threshold rep)) /\
     occurs group_col (group_b rep) (clean_of df_raw (threshold rep))).
Proof.
  split.
  - intros e He. unfold analyse_page, analyse. rewrite He. reflexivity.
  - intros rep s' Hrun.
    destruct (analyse_returned _ _ _ _ _ Hrun)
      as (Hv & _ & Hr & _ & _ & Hsize & _).
    destruct (unique_pair _ _ _ (validate_groups_returned _ _ _ Hv))
      as (Hne & Hshape).
    rewrite raw_rates_eq in Hr.
    destruct (mem (group_a rep) (map group_col (clean_of df_raw (threshold rep))))
      eqn:Ea; [|discriminate].
    destruct (mem (group_b rep) (map group_col (clean_of df_raw (threshold rep))))
      eqn:Eb; [|discriminate].
    repeat split; try assumption; apply occurs_iff_mem; assumption.
Qed.

(** C9 (as the code has it). When the cleaned table has no row of one of
    the two groups, the page ends in the [KeyError] of the per-group rate
    lookup, before the bootstrap and before the rank test, which is never
    called: no result is returned, and the session is left as it was. *)
Theorem empty_group_ends_in_key_error
    (df_raw : list Row) (moved : option Z) (s : Session)
    (a b : Label) (t : Z) :
  validate_groups group_col df_raw = Ok (a, b) ->
  threshold_slider continuous_col Series_quantile df_raw moved = Ok t ->
  length (group_rows group_col a (clean_of df_raw t)) = 0%nat \/
  length (group_rows group_col b (clean_of df_raw t)) = 0%nat ->
  exists key, (key = a \/ key = b) /\
    analyse_page df_raw moved s = (Failed (KeyError key), s).
Proof.
  intros Hv Ht Hempty. unfold analyse_page, analyse. rewrite Hv, Ht.
  rewrite raw_rates_eq. fold (clean_of df_raw t).
  destruct (mem a (map group_col (clean_of df_raw t))) eqn:Ea;
    [|exists a; auto].
  destruct (mem b (map group_col (clean_of df_raw t))) eqn:Eb;
    [|exists b; auto].
  exfalso. destruct Hempty as [H|H]; apply empty_group_not_mem in H; congruence.
Qed.




End Page.


(** *** The page on the small tables *)

Lemma group_validator_witness :
  (exists a b k rest,
     validate_groups version two_players = Ok (a, b) /\ a <> b /\
     map version two_players = repeat a (S k) ++ b :: rest /\
     Forall (fun x => x = a \/ x = b) rest) /\
  analyse Player_eq_dec "version"%string "retention_7"%string version retention_7 sum_gamerounds quantile mwu_stub
          three_gates None (fresh counting)
  = (Failed (GroupCardinality (unique (map version three_gates))),
     fresh counting).
Proof.
  split.
  - apply (proj1 (group_validator version two_players)). reflexivity.
  - apply (proj2 (group_validator version three_gates)).
    vm_compute. discriminate.
Defined.

(** C7, counterexample.  The third label of [three_gates] sits on the one
    row that the default threshold removes: the cleaned table has exactly
    two labels and passes the validation, yet the page stops on the three
    labels of the raw table.  And in [two_players] with the slider at 15
    the validation returns both raw labels although the cleaned table
    holds only the first. *)
Lemma validator_reads_raw_table :
  (threshold_slider sum_gamerounds quantile three_gates None = Ok 3000%Z /\
   validate_groups version (df_clean sum_gamerounds three_gates 3000)
   = Ok (gate_30, gate_40) /\
   fst (analyse Player_eq_dec "version"%string "retention_7"%string version retention_7 sum_gamerounds quantile mwu_stub
          three_gates None (fresh counting))
   = Failed (GroupCardinality [gate_30; gate_40; gate_50])) /\
  (threshold_slider sum_gamerounds quantile two_players (Some 15%Z) = Ok 15%Z /\
   validate_groups version two_players = Ok (gate_30, gate_40) /\
   unique_groups version (df_clean sum_gamerounds two_players 15)
   = [gate_30]).
Proof.
  repeat split; vm_compute; reflexivity.
Qed.

Lemma groups_validated_on_raw_witness :
  exists rep,
    fst (analyse Player_eq_dec "version"%string "retention_7"%string version retention_7 sum_gamerounds quantile mwu_stub
           five_players None (fresh counting)) = Ok rep /\
    validate_groups version five_players = Ok (group_a rep, group_b rep) /\
    group_a rep <> group_b rep.
Proof.
  pose proof (proj2 (groups_validated_on_raw Player_eq_dec "version"%string "retention_7"%string version retention_7
                       sum_gamerounds quantile mwu_stub five_players None
                       (fresh counting))) as H.
  destruct (analyse Player_eq_dec "version"%string "retention_7"%string version retention_7 sum_gamerounds quantile mwu_stub
              five_players None (fresh counting))
    as [[rep|e] s'] eqn:E.
  - exists rep. split; [reflexivity|].
    destruct (H rep s' eq_refl) as (Hv & Hne & _). split; assumption.
  - exfalso. vm_compute in E. discriminate.
Defined.

(** C9, counterexample.  With the slider at 15 the cleaned [two_players]
    has no [gate_40] row.  The page then ends in the [KeyError] of the
    rate lookup, not in an error of the rank test, whether the rank test
    would have refused the empty sample or answered [nan]. *)
Lemma empty_group_not_reported_by_rank_test :
  threshold_slider sum_gamerounds quantile two_players (Some 15%Z) = Ok 15%Z /\
  length (group_rows version gate_40 (df_clean sum_gamerounds two_players 15))
  = 0%nat /\
  fst (analyse Player_eq_dec "version"%string "retention_7"%string version retention_7 sum_gamerounds quantile mwu_stub
         two_players (Some 15%Z) (fresh counting))
  = Failed (KeyError gate_40) /\
  fst (analyse Player_eq_dec "version"%string "retention_7"%string version retention_7 sum_gamerounds quantile mwu_nan
         two_players (Some 15%Z) (fresh counting))
  = Failed (KeyError gate_40).
Proof.
  repeat split; vm_compute; reflexivity.
Qed.

Lemma empty_group_ends_in_key_error_witness :
  exists key, (key = gate_30 \/ key = gate_40) /\
    analyse Player_eq_dec "version"%string "retention_7"%string version retention_7 sum_gamerounds quantile mwu_stub
      two_players (Some 15%Z) (fresh counting)
    = (Failed (KeyError key), fresh counting).
Proof.
  apply (empty_group_ends_in_key_error Player_eq_dec "version"%string "retention_7"%string version retention_7
           sum_gamerounds quantile mwu_stub two_players (Some 15%Z) (fresh counting)
           gate_30 gate_40 15%Z).
  - vm_compute. reflexivity.
  - vm_compute. reflexivity.
  - right. vm_compute. reflexivity.
Defined.



(** ** The default position of the slider *)

Lemma int_nonneg (x : Q) : 0 <= x -> int x = Qfloor x.
Proof.
  destruct x as [n d]. unfold Qle, int, Qfloor. simpl. intro H.
  apply Z.quot_div_nonneg; lia.
Qed.

Lemma int_nonpos (x : Q) : x <= 0 -> int x = Qceiling x.
Proof.
  destruct x as [n d]. unfold Qle, int, Qceiling, Qfloor. simpl. intro H.
  rewrite <- (Z.opp_involutive n) at 1.
  rewrite Z.quot_opp_l by lia. f_equal.
  apply Z.quot_div_nonneg; lia.
Qed.

Lemma int_monotone (x y : Q) : x <= y -> (int x <= int y)%Z.
Proof.
  intro H. destruct (Qlt_le_dec x 0) as [Hx|Hx];
    destruct (Qlt_le_dec y 0) as [Hy|Hy].
  - rewrite !int_nonpos by (apply Qlt_le_weak; assumption).
    apply Qceiling_resp_le. exact H.
  - rewrite (int_nonpos x) by (apply Qlt_le_weak; assumption).
    rewrite (int_nonneg y) by assumption.
    apply Z.le_trans with 0%Z.
    + change 0%Z with (Qceiling 0). apply Qceiling_resp_le.
      apply Qlt_le_weak. exact Hx.
    + change 0%Z with (Qfloor 0). apply Qfloor_resp_le. exact Hy.
  - exfalso. lra.
  - rewrite !int_nonneg by (assumption || lra).
    apply Qfloor_resp_le. exact H.
Qed.

Lemma fold_max_bounds (t : list Q) (m : Q) :
  let r := fold_left (fun m y => if Qlt_bool m y then y else m) t m in
  m <= r /\ forall y, In y t -> y <= r.
Proof.
  revert m. induction t as [|x t IH]; intro m; simpl.
  - split; [apply Qle_refl | tauto].
  - destruct (Qlt_bool m x) eqn:E.
    + apply Qlt_bool_iff in E. destruct (IH x) as [H1 H2]. split.
      * apply Qle_trans with x; [apply Qlt_le_weak; exact E | exact H1].
      * intros y [<-|Hy]; [exact H1 | apply H2; exact Hy].
    + apply Qlt_bool_false_iff in E. destruct (IH m) as [H1 H2]. split.
      * exact H1.
      * intros y [<-|Hy]; [apply Qle_trans with m; assumption | apply H2; exact Hy].
Qed.

Lemma fold_min_bounds (t : list Q) (m : Q) :
  let r := fold_left (fun m y => if Qlt_bool y m then y else m) t m in
  r <= m /\ forall y, In y t -> r <= y.
Proof.
  revert m. induction t as [|x t IH]; intro m; simpl.
  - split; [apply Qle_refl | tauto].
  - destruct (Qlt_bool x m) eqn:E.
    + apply Qlt_bool_iff in E. destruct (IH x) as [H1 H2]. split.
      * apply Qle_trans with x; [exact H1 | apply Qlt_le_weak; exact E].
      * intros y [<-|Hy]; [exact H1 | apply H2; exact Hy].
    + apply Qlt_bool_false_iff in E. destruct (IH m) as [H1 H2]. split.
      * exact H1.
      * intros y [<-|Hy]; [apply Qle_trans with m; assumption | apply H2; exact Hy].
Qed.

Lemma series_max_upper (xs : list Q) (mx : Q) :
  series_max xs = Some mx -> forall x, In x xs -> x <= mx.
Proof.
  destruct xs as [|x0 t]; [discriminate|]. simpl. intro H. injection H as <-.
  destruct (fold_max_bounds t x0) as [H1 H2].
  intros x [<-|Hx]; [exact H1 | apply H2; exact Hx].
Qed.

Lemma series_min_lower (xs : list Q) (mn : Q) :
  series_min xs = Some mn -> forall x, In x xs -> mn <= x.
Proof.
  destruct xs as [|x0 t]; [discriminate|]. simpl. intro H. injection H as <-.
  destruct (fold_min_bounds t x0) as [H1 H2].
  intros x [<-|Hx]; [exact H1 | apply H2; exact Hx].
Qed.

Lemma insert_sorted_In (x y : Q) (l : list Q) :
  In y (insert_sorted x l) -> y = x \/ In y l.
Proof.
  induction l as [|z l IH]; simpl.
  - intros [<-|[]]. auto.
  - destruct (Qle_bool x z); simpl.
    + intros [<-|[<-|H]]; auto.
    + intros [<-|H]; [auto|]. destruct (IH H); auto.
Qed.

Lemma sort_values_In (y : Q) (l : list Q) : In y (sort_values l) -> In y l.
Proof.
  induction l as [|x l IH]; simpl; [tauto|].
  intro H. apply insert_sorted_In in H. destruct H as [->|H]; auto.
Qed.

Lemma convex_between (mn mx a b f : Q) :
  mn <= a <= mx -> mn <= b <= mx -> 0 <= f <= 1 ->
  mn <= a + f * (b - a) <= mx.
Proof. intros Ha Hb Hf. nra. Qed.

(** An interpolated quantile lies between the smallest and the largest
    value of the series. *)
Lemma quantile_between (xs : list Q) (q v mn mx : Q) :
  0 <= q <= 1 ->
  quantile xs q = Some v ->
  series_min xs = Some mn -> series_max xs = Some mx ->
  mn <= v <= mx.
Proof.
  intros Hq Hv Hmn Hmx. unfold quantile in Hv.
  destruct (sort_values xs) as [|x0 rest] eqn:E; [discriminate|].
  cbv zeta in Hv. injection Hv as <-.
  change (length (x0 :: rest) - 1)%nat with (length rest - 0)%nat.
  rewrite Nat.sub_0_r.
  set (m := length rest).
  assert (Hm : 0 <= inject_Z (Z.of_nat m)).
  { change 0 with (inject_Z 0). rewrite <- Zle_Qle. lia. }
  assert (Hh : 0 <= q * inject_Z (Z.of_nat m) <= inject_Z (Z.of_nat m)).
  { destruct Hq as [Hq0 Hq1]. split.
    - apply Qmult_le_0_compat; assumption.
    - rewrite <- (Qmult_1_l (inject_Z (Z.of_nat m))) at 2.
      apply Qmult_le_compat_r; assumption. }
  set (h := q * inject_Z (Z.of_nat m)) in *.
  assert (Hf0 : (0 <= Qfloor h)%Z).
  { change 0%Z with (Qfloor 0). apply Qfloor_resp_le. tauto. }
  assert (Hf1 : (Qfloor h <= Z.of_nat m)%Z).
  { rewrite <- (Qfloor_Z (Z.of_nat m)). apply Qfloor_resp_le. tauto. }
  set (lo := Z.to_nat (Qfloor h)).
  assert (Hlo : Z.of_nat lo = Qfloor h) by (unfold lo; lia).
  assert (Hfrac : 0 <= h - inject_Z (Z.of_nat lo) <= 1).
  { rewrite Hlo. pose proof (Qfloor_le h) as H1. pose proof (Qlt_floor h) as H2.
    rewrite inject_Z_plus in H2. change (inject_Z 1) with 1 in H2. lra. }
  assert (Hin : forall i, (i <= m)%nat -> In (nth i (x0 :: rest) x0) xs).
  { intros i Hi. apply sort_values_In. rewrite E. apply nth_In.
    simpl. fold m. lia. }
  assert (Hrange : forall x, In x xs -> mn <= x <= mx).
  { intros x Hx. split;
      [eapply series_min_lower | eapply series_max_upper]; eassumption. }
  assert (Hlom : (lo <= m)%nat) by lia.
  apply convex_between.
  - apply Hrange, Hin. exact Hlom.
  - apply Hrange, Hin. apply Nat.le_min_r.
  - exact Hfrac.
Qed.

(** What the slider answers, by cases on its arguments. *)
Lemma st_slider_accepts (a b v : Z) (moved : option Z) :
  (a <= b)%Z -> (Z.min v a < Z.max v b)%Z ->
  (- js_max_safe <= a)%Z -> (b <= js_max_safe)%Z ->
  (- js_max_safe <= v <= js_max_safe)%Z ->
  st_slider a b v moved
  = Ok (match moved with
        | Some t => if ((Z.min v a <=? t) && (t <=? Z.max v b))%Z then t else v
        | None => v
        end).
Proof.
  intros Hab Hne Ha Hb Hv. unfold st_slider, js_int. cbv zeta.
  rewrite (Z.min_l a b Hab).
  rewrite (Z.max_r a b Hab).
  assert (E0 : (Z.min v a =? Z.max v b)%Z = false)
    by (apply Z.eqb_neq; lia).
  assert (E1 : (- js_max_safe <=? Z.min v a)%Z = true)
    by (apply Z.leb_le; lia).
  assert (E2 : (Z.min v a <=? js_max_safe)%Z = true)
    by (apply Z.leb_le; lia).
  assert (E3 : (- js_max_safe <=? Z.max v b)%Z = true)
    by (apply Z.leb_le; lia).
  assert (E4 : (Z.max v b <=? js_max_safe)%Z = true)
    by (apply Z.leb_le; lia).
  rewrite E0, E1, E2, E3, E4. reflexivity.
Qed.

Lemma st_slider_untouched (a b v : Z) :
  (a <= b)%Z -> (Z.min v a < Z.max v b)%Z ->
  (- js_max_safe <= a)%Z -> (b <= js_max_safe)%Z ->
  (- js_max_safe <= v <= js_max_safe)%Z ->
  st_slider a b v None = Ok v.
Proof. intros. rewrite st_slider_accepts by assumption. reflexivity. Qed.

Lemma st_slider_single_point (a : Z) (moved : option Z) :
  st_slider a a a moved = Failed SliderRange.
Proof.
  unfold st_slider. cbv zeta. rewrite !Z.min_id, !Z.max_id, Z.eqb_refl.
  reflexivity.
Qed.

Section DefaultThreshold.

Context {Row : Type}.
Variable continuous_col : Row -> Q.
Variable Series_quantile : list Q -> Q -> option Q.

(** C5 (as the code has it). When the slider is left alone, no value of
    the column exceeds 3000, and the slider accepts its bounds, the
    threshold is the 99th percentile that pandas returned cut down to an
    integer: [int(q99)], which for a percentile that is not negative is
    the largest integer not above it.  When the smallest value, the
    largest value and the percentile all cut down to the same integer,
    the slider refuses its range and the page ends there. *)
Theorem default_threshold_truncated_q99 (df_raw : list Row) (q99 mn mx : Q) :
  Series_quantile (map continuous_col df_raw) (99 # 100) = Some q99 ->
  series_min (map continuous_col df_raw) = Some mn ->
  series_max (map continuous_col df_raw) = Some mx ->
  mx <= inject_Z 3000 ->
  ((int mn < int mx)%Z ->
   (- js_max_safe <= int mn)%Z ->
   (- js_max_safe <= int q99 <= js_max_safe)%Z ->
   threshold_slider continuous_col Series_quantile df_raw None
   = Ok (int q99)) /\
  (int mn = int mx -> int q99 = int mn ->
   forall moved,
     threshold_slider continuous_col Series_quantile df_raw moved
     = Failed SliderRange) /\
  (0 <= q99 -> inject_Z (int q99) <= q99 < inject_Z (int q99) + 1).
Proof.
  intros Hq Hmn Hmx Hle.
  assert (Hargs : slider_args (Series_quantile (map continuous_col df_raw)
                                 (99 # 100)) (map continuous_col df_raw)
                  = Ok (int mn, int mx, int q99)).
  { unfold slider_args. rewrite Hq, Hmn, Hmx.
    apply Qlt_bool_false_iff in Hle. rewrite Hle. reflexivity. }
  split; [|split].
  - intros Hlt Hlow Hv. unfold threshold_slider. rewrite Hargs. simpl.
    apply st_slider_untouched; try assumption; try lia.
    apply Z.le_trans with 3000%Z; [|unfold js_max_safe; lia].
    change 3000%Z with (int (inject_Z 3000)). apply int_monotone. exact Hle.
  - intros Heq Hv moved. unfold threshold_slider. rewrite Hargs. simpl.
    rewrite Hv, <- Heq. apply st_slider_single_point.
  - intro H0. rewrite (int_nonneg _ H0). split; [apply Qfloor_le|].
    pose proof (Qlt_floor q99) as H. rewrite inject_Z_plus in H. exact H.
Qed.

End DefaultThreshold.

(** C5, counterexample.  Left alone, the slider of [two_players] stands at
    19 while the 99th percentile of the column is 19.9; that of
    [three_gates], whose largest value exceeds 3000, stands at 3000 while
    the 99th percentile is 4900.4. *)
Lemma default_threshold_is_not_q99 :
  (exists q99,
     quantile (map sum_gamerounds two_players) (99 # 100) = Some q99 /\
     q99 == 199 # 10 /\
     threshold_slider sum_gamerounds quantile two_players None = Ok 19%Z /\
     ~ inject_Z 19 == q99) /\
  (exists q99,
     quantile (map sum_gamerounds three_gates) (99 # 100) = Some q99 /\
     q99 == 49004 # 10 /\
     threshold_slider sum_gamerounds quantile three_gates None = Ok 3000%Z /\
     ~ inject_Z 3000 == q99).
Proof.
  split; eexists; (split; [vm_compute; reflexivity|]);
    (split; [reflexivity|]); (split; [vm_compute; reflexivity|]);
    intro H; vm_compute in H; discriminate.
Qed.

Lemma default_threshold_truncated_q99_witness :
  exists q99,
    quantile (map sum_gamerounds two_players) (99 # 100) = Some q99 /\
    int q99 = 19%Z /\
    threshold_slider sum_gamerounds quantile two_players None = Ok (int q99).
Proof.
  eexists. split; [vm_compute; reflexivity|].
  split; [vm_compute; reflexivity|].
  refine (proj1 (default_threshold_truncated_q99 sum_gamerounds quantile
                   two_players _ (inject_Z 10) (inject_Z 20) _ _ _ _) _ _ _).
  - vm_compute. reflexivity.
  - vm_compute. reflexivity.
  - vm_compute. reflexivity.
  - vm_compute. discriminate.
  - vm_compute. reflexivity.
  - vm_compute. discriminate.
  - split; vm_compute; discriminate.
Defined.


(** * Further properties of the page *)

(** ** The probability and the recommendation in terms of counts *)

Lemma count_positive_le (differences : list Q) :
  (count_positive differences <= length differences)%nat.
Proof.
  unfold count_positive.
  rewrite <- (filter_split_length (fun d => Qlt_bool 0 d) differences) at 1.
  apply Nat.le_add_r.
Qed.

Lemma inject_nat_pos (n : nat) : (0 < n)%nat -> 0 < inject_Z (Z.of_nat n).
Proof.
  intro H. change 0 with (inject_Z 0). rewrite <- Zlt_Qlt. lia.
Qed.

Lemma ratio_above (k c n : Q) : 0 < n -> (k < c / n <-> k * n < c).
Proof.
  intro Hn. split; intro H.
  - apply Qmult_lt_compat_r with (z := n) in H; [|exact Hn].
    setoid_replace (c / n * n) with c in H; [exact H|].
    field. intro E. rewrite E in Hn. discriminate.
  - apply Qlt_shift_div_l; assumption.
Qed.

Lemma ratio_below (k c n : Q) : 0 < n -> (c / n < k <-> c < k * n).
Proof.
  intro Hn. split; intro H.
  - apply Qmult_lt_compat_r with (z := n) in H; [|exact Hn].
    setoid_replace (c / n * n) with c in H; [exact H|].
    field. intro E. rewrite E in Hn. discriminate.
  - apply Qlt_shift_div_r; assumption.
Qed.

(** X1. The probability that A is better is a fraction between 0 and 1
    whenever at least one difference was collected, and [nan] when none
    was. *)
Theorem prob_a_better_range (differences : list Q) :
  (differences = [] -> prob_a_better differences = nan) /\
  (differences <> [] ->
   exists p, prob_a_better differences = fin p /\ 0 <= p <= 1).
Proof.
  split; [intros ->; reflexivity|]. intro Hne.
  destruct (prob_a_better_ratio differences Hne) as (p & Hp & Heq).
  exists p. split; [exact Hp|].
  assert (Hlen : (0 < length differences)%nat).
  { destruct differences; [contradiction | simpl; lia]. }
  pose proof (inject_nat_pos _ Hlen) as Hn.
  pose proof (count_positive_le differences) as Hc.
  rewrite Heq. split.
  - apply Qle_shift_div_l; [exact Hn|]. rewrite Qmult_0_l.
    change 0 with (inject_Z 0). rewrite <- Zle_Qle. lia.
  - apply Qle_shift_div_r; [exact Hn|]. rewrite Qmult_1_l.
    rewrite <- Zle_Qle. lia.
Qed.

Lemma prob_a_better_range_witness :
  exists p, prob_a_better [1; 0; -(1)] = fin p /\ 0 <= p <= 1.
Proof.
  apply (proj2 (prob_a_better_range [1; 0; -(1)])). discriminate.
Defined.

(** X2. With [n > 0] differences of which [c] are strictly positive, the
    recommendation is A_WINS exactly when [c / n > 95 / 100], that is
    [95 * n < 100 * c], and B_WINS exactly when [100 * c < 5 * n]. *)
Theorem recommendation_by_counts (differences : list Q) :
  differences <> [] ->
  let n := length differences in
  let c := count_positive differences in
  (recommendation (prob_a_better differences) = A_WINS
   <-> (95 * n < 100 * c)%nat) /\
  (recommendation (prob_a_better differences) = B_WINS
   <-> (100 * c < 5 * n)%nat).
Proof.
  intros Hne n c.
  destruct (prob_a_better_ratio differences Hne) as (p & Hp & Heq).
  fold n c in Heq.
  assert (Hlen : (0 < n)%nat).
  { unfold n. destruct differences; [contradiction | simpl; lia]. }
  pose proof (inject_nat_pos _ Hlen) as Hn.
  assert (Hgt : Qlt_bool (95 # 100) p = true <-> (95 * n < 100 * c)%nat).
  { rewrite Qlt_bool_iff, Heq, ratio_above by exact Hn.
    unfold Qlt, Qmult, inject_Z. cbn [Qnum Qden]. lia. }
  assert (Hlt : Qlt_bool p (5 # 100) = true <-> (100 * c < 5 * n)%nat).
  { rewrite Qlt_bool_iff, Heq, ratio_below by exact Hn.
    unfold Qlt, Qmult, inject_Z. cbn [Qnum Qden]. lia. }
  rewrite Hp. unfold recommendation. simpl.
  destruct (Qlt_bool (95 # 100) p) eqn:Eg;
    destruct (Qlt_bool p (5 # 100)) eqn:El; split; split;
    try (intros; reflexivity); try discriminate; intro H;
    try (apply Hgt in H; discriminate);
    try (apply Hlt in H; discriminate);
    try (apply Hgt; reflexivity); try (apply Hlt; reflexivity).
  - exfalso. assert (H1 : (95 * n < 100 * c)%nat) by (apply Hgt; reflexivity).
    lia.
Qed.

Lemma recommendation_by_counts_witness :
  (recommendation (prob_a_better [1; 0; -(1)]) = A_WINS
   <-> (95 * 3 < 100 * count_positive [1; 0; -(1)]%Q)%nat) /\
  (recommendation (prob_a_better [1; 0; -(1)]) = B_WINS
   <-> (100 * count_positive [1; 0; -(1)]%Q < 5 * 3)%nat).
Proof.
  apply (recommendation_by_counts [1; 0; -(1)]). discriminate.
Defined.

(** X3. A difference of exactly 0 does not count for A: when no
    difference is strictly positive (all are negative or zero) the
    recommendation is B_WINS, and when all are strictly positive it is
    A_WINS. *)
Theorem recommendation_unanimous (differences : list Q) :
  differences <> [] ->
  (Forall (fun d => d <= 0) differences ->
   recommendation (prob_a_better differences) = B_WINS) /\
  (Forall (fun d => 0 < d) differences ->
   recommendation (prob_a_better differences) = A_WINS).
Proof.
  intro Hne.
  assert (Hlen : (0 < length differences)%nat).
  { destruct differences; [contradiction | simpl; lia]. }
  destruct (prob_a_better_ratio differences Hne) as (p & Hp & Heq).
  pose proof (inject_nat_pos _ Hlen) as Hn.
  rewrite Hp. unfold recommendation. simpl. split; intro Hall.
  - assert (Hc : count_positive differences = 0%nat).
    { unfold count_positive. clear -Hall.
      induction Hall as [|d l Hd _ IH]; simpl; [reflexivity|].
      apply Qlt_bool_false_iff in Hd. rewrite Hd. exact IH. }
    rewrite Hc in Heq.
    assert (Hp0 : p == 0) by (rewrite Heq; unfold Qdiv; apply Qmult_0_l).
    assert (Hg : Qlt_bool (95 # 100) p = false).
    { apply Qlt_bool_false_iff. rewrite Hp0. discriminate. }
    assert (Hl : Qlt_bool p (5 # 100) = true).
    { apply Qlt_bool_iff. rewrite Hp0. reflexivity. }
    rewrite Hg, Hl. reflexivity.
  - assert (Hc : count_positive differences = length differences).
    { unfold count_positive. clear -Hall.
      induction Hall as [|d l Hd _ IH]; simpl; [reflexivity|].
      apply Qlt_bool_iff in Hd. rewrite Hd. simpl. rewrite IH. reflexivity. }
    rewrite Hc in Heq.
    assert (Hp1 : p == 1).
    { rewrite Heq. field. intro E. rewrite E in Hn. discriminate. }
    assert (Hg : Qlt_bool (95 # 100) p = true).
    { apply Qlt_bool_iff. rewrite Hp1. reflexivity. }
    rewrite Hg. reflexivity.
Qed.

Lemma recommendation_unanimous_witness :
  recommendation (prob_a_better [0; 0; 0]) = B_WINS /\
  recommendation (prob_a_better [1; 1 # 2]) = A_WINS.
Proof.
  split.
  - apply (proj1 (recommendation_unanimous [0; 0; 0] ltac:(discriminate))).
    repeat constructor; discriminate.
  - apply (proj2 (recommendation_unanimous [1; 1 # 2] ltac:(discriminate))).
    repeat constructor.
Defined.


(** ** More on the outlier filter *)

Lemma Subseq_length {A : Type} (s l : list A) :
  Subseq s l -> (length s <= length l)%nat.
Proof. induction 1; simpl; lia. Qed.

Lemma filter_filter_and {A : Type} (f g : A -> bool) (l : list A) :
  filter f (filter g l) = filter (fun x => f x && g x) l.
Proof.
  induction l as [|x l IH]; simpl; [reflexivity|].
  destruct (g x); simpl; [destruct (f x)|rewrite andb_false_r];
    simpl; rewrite IH; reflexivity.
Qed.

Lemma Qlt_bool_min (x : Q) (t1 t2 : Z) :
  Qlt_bool x (inject_Z (Z.min t1 t2))
  = Qlt_bool x (inject_Z t1) && Qlt_bool x (inject_Z t2).
Proof.
  destruct (Z.le_ge_cases t1 t2) as [H|H].
  - rewrite Z.min_l by exact H. rewrite Zle_Qle in H.
    destruct (Qlt_bool x (inject_Z t1)) eqn:E1; [|reflexivity].
    apply Qlt_bool_iff in E1. symmetry. apply Qlt_bool_iff. simpl.
    eapply Qlt_le_trans; eassumption.
  - rewrite Z.min_r by exact H. rewrite Zle_Qle in H.
    destruct (Qlt_bool x (inject_Z t2)) eqn:E2;
      [|rewrite andb_false_r; reflexivity].
    apply Qlt_bool_iff in E2. rewrite andb_true_r. symmetry.
    apply Qlt_bool_iff. eapply Qlt_le_trans; eassumption.
Qed.

Lemma filter_Subseq_weaker {A : Type} (f g : A -> bool) (l : list A) :
  (forall x, f x = true -> g x = true) -> Subseq (filter f l) (filter g l).
Proof.
  intro H. induction l as [|x l IH]; simpl; [constructor|].
  destruct (f x) eqn:Ef.
  - rewrite (H x Ef). apply Subseq_keep. exact IH.
  - destruct (g x); [apply Subseq_drop|]; exact IH.
Qed.

Section FilterMore.

Context {Row : Type}.
Variable continuous_col : Row -> Q.

(** X4. Filtering with one threshold and then with another is filtering
    once with the smaller of the two. *)
Theorem outlier_filter_compose (df_raw : list Row) (t1 t2 : Z) :
  df_clean continuous_col (df_clean continuous_col df_raw t2) t1
  = df_clean continuous_col df_raw (Z.min t1 t2).
Proof.
  unfold df_clean. rewrite filter_filter_and. apply filter_ext.
  intro r. symmetry. apply Qlt_bool_min.
Qed.

(** X5. Raising the threshold never loses a row: the table cleaned with
    the lower threshold is a subsequence of the one cleaned with the
    higher threshold, and the removed count does not grow. *)
Theorem outlier_filter_monotone (df_raw : list Row) (t1 t2 : Z) :
  (t1 <= t2)%Z ->
  Subseq (df_clean continuous_col df_raw t1)
         (df_clean continuous_col df_raw t2) /\
  (removed_count continuous_col df_raw t2
   <= removed_count continuous_col df_raw t1)%Z.
Proof.
  intro Hle.
  assert (Hsub : Subseq (df_clean continuous_col df_raw t1)
                        (df_clean continuous_col df_raw t2)).
  { unfold df_clean. apply filter_Subseq_weaker. intros r Hr.
    apply Qlt_bool_iff in Hr. apply Qlt_bool_iff.
    eapply Qlt_le_trans; [exact Hr|]. rewrite <- Zle_Qle. exact Hle. }
  split; [exact Hsub|].
  apply Subseq_length in Hsub. unfold removed_count. lia.
Qed.

(** X6. A threshold at or below every value of the column removes every
    row (the cleaned table is empty, not an error of the filter), and a
    threshold above every value removes none. *)
Theorem outlier_filter_extremes (df_raw : list Row) (threshold : Z) :
  ((forall r, In r df_raw -> inject_Z threshold <= continuous_col r) ->
   df_clean continuous_col df_raw threshold = [] /\
   removed_count continuous_col df_raw threshold = Z.of_nat (length df_raw)) /\
  ((forall r, In r df_raw -> continuous_col r < inject_Z threshold) ->
   df_clean continuous_col df_raw threshold = df_raw /\
   removed_count continuous_col df_raw threshold = 0%Z).
Proof.
  unfold removed_count, df_clean. split; intro H.
  - assert (E : filter (fun r => Qlt_bool (continuous_col r)
                                          (inject_Z threshold)) df_raw = []).
    { induction df_raw as [|r l IH]; simpl; [reflexivity|].
      assert (Hr : Qlt_bool (continuous_col r) (inject_Z threshold) = false).
      { apply Qlt_bool_false_iff. apply H. left. reflexivity. }
      rewrite Hr. apply IH. intros r' Hr'. apply H. right. exact Hr'. }
    rewrite E. simpl. split; [reflexivity | lia].
  - assert (E : filter (fun r => Qlt_bool (continuous_col r)
                                          (inject_Z threshold)) df_raw = df_raw).
    { induction df_raw as [|r l IH]; simpl; [reflexivity|].
      assert (Hr : Qlt_bool (continuous_col r) (inject_Z threshold) = true).
      { apply Qlt_bool_iff. apply H. left. reflexivity. }
      rewrite Hr. f_equal. apply IH. intros r' Hr'. apply H. right. exact Hr'. }
    rewrite E. split; [reflexivity | lia].
Qed.

End FilterMore.

Lemma outlier_filter_monotone_witness :
  Subseq (df_clean sum_gamerounds three_gates 15)
         (df_clean sum_gamerounds three_gates 3000) /\
  (removed_count sum_gamerounds three_gates 3000
   <= removed_count sum_gamerounds three_gates 15)%Z.
Proof.
  apply (outlier_filter_monotone sum_gamerounds three_gates 15 3000). lia.
Defined.

Lemma outlier_filter_extremes_witness :
  (df_clean sum_gamerounds two_players 10 = [] /\
   removed_count sum_gamerounds two_players 10 = 2%Z) /\
  (df_clean sum_gamerounds two_players 21 = two_players /\
   removed_count sum_gamerounds two_players 21 = 0%Z).
Proof.
  split.
  - apply (proj1 (outlier_filter_extremes sum_gamerounds two_players 10)).
    intros r [<-|[<-|[]]]; vm_compute; discriminate.
  - apply (proj2 (outlier_filter_extremes sum_gamerounds two_players 21)).
    intros r [<-|[<-|[]]]; reflexivity.
Defined.


(** ** More on the page as a whole *)

Section PageMore.

Context {Row : Type}.
Variable Row_eq_dec : forall x y : Row, {x = y} + {x <> y}.
Variable group_name metric_name : string.
Variable group_col : Row -> Label.
Variable metric_col : Row -> Q.
Variable continuous_col : Row -> Q.
Variable Series_quantile : list Q -> Q -> option Q.

Let page := analyse Row_eq_dec group_name metric_name group_col metric_col
          continuous_col Series_quantile.
Let cleaned (df_raw : list Row) (t : Z) := df_clean continuous_col df_raw t.

Lemma analyse_returned_counts
    (mannwhitneyu : list Q -> list Q -> option (num * num))
    (df_raw : list Row) (moved : option Z) (s s' : Session) (rep : Report) :
  page mannwhitneyu df_raw moved s = (Ok rep, s') ->
  size_a rep = length (group_rows group_col (group_a rep)
                                  (cleaned df_raw (threshold rep))) /\
  size_b rep = length (group_rows group_col (group_b rep)
                                  (cleaned df_raw (threshold rep))) /\
  removed rep = removed_count continuous_col df_raw (threshold rep).
Proof.
  unfold page, analyse, cleaned.
  destruct (validate_groups group_col df_raw) as [[a b]|e]; [|discriminate].
  destruct (threshold_slider continuous_col Series_quantile df_raw moved) as [t|e];
    [|discriminate].
  destruct (raw_rates group_col metric_col _ a b) as [[ra rb]|e];
    [|discriminate].
  destruct (run_bootstrapping Row_eq_dec group_name metric_name group_col metric_col _ a b _ s)
    as [[boot|e] s1]; [|discriminate].
  destruct (rank_test group_col continuous_col mannwhitneyu _ a b)
    as [[u p]|e]; [|discriminate].
  intro H. injection H as <- <-. simpl. repeat split; reflexivity.
Qed.

Lemma two_labels_partition (df : list Row) (a b : Label) :
  a <> b ->
  (forall r, In r df -> group_col r = a \/ group_col r = b) ->
  (length (group_rows group_col a df) + length (group_rows group_col b df)
   = length df)%nat.
Proof.
  intros Hab. unfold group_rows, label_eqb.
  induction df as [|r l IH]; intro H; simpl; [reflexivity|].
  assert (IH' := IH (fun r' Hr' => H r' (or_intror Hr'))).
  destruct (H r (or_introl eq_refl)) as [Hr|Hr]; rewrite Hr.
  - rewrite String.eqb_refl. apply String.eqb_neq in Hab. rewrite Hab.
    simpl. lia.
  - rewrite String.eqb_refl. assert (Hba : b <> a) by congruence.
    apply String.eqb_neq in Hba. rewrite Hba. simpl. lia.
Qed.

(** X7. The sizes that a completed run reports are consistent: both
    groups are non-empty, their sizes add up to the size of the cleaned
    table, and the cleaned size plus the removed count is the size of the
    uploaded table. *)
Theorem report_sizes_add_up
    (mannwhitneyu : list Q -> list Q -> option (num * num))
    (df_raw : list Row) (moved : option Z) (s s' : Session) (rep : Report) :
  page mannwhitneyu df_raw moved s = (Ok rep, s') ->
  (0 < size_a rep)%nat /\ (0 < size_b rep)%nat /\
  (size_a rep + size_b rep = cleaned_size rep)%nat /\
  (0 <= removed rep)%Z /\
  (removed rep + Z.of_nat (cleaned_size rep) = Z.of_nat (length df_raw))%Z.
Proof.
  intro Hrun.
  destruct (analyse_returned _ _ _ _ _ _ _ _ _ _ _ _ _ Hrun)
    as (Hv & _ & Hr & _ & _ & Hsize & _).
  destruct (analyse_returned_counts _ _ _ _ _ _ Hrun) as (Ha & Hb & Hrem).
  pose proof (validate_groups_returned _ _ _ _ Hv) as Hu.
  destruct (unique_pair _ _ _ Hu) as (Hne & _).
  rewrite raw_rates_eq in Hr. unfold cleaned in *.
  set (clean := df_clean continuous_col df_raw (threshold rep)) in *.
  destruct (mem (group_a rep) (map group_col clean)) eqn:Ea; [|discriminate].
  destruct (mem (group_b rep) (map group_col clean)) eqn:Eb; [|discriminate].
  apply occurs_iff_mem, occurs_iff_rows in Ea, Eb.
  assert (Hpart : (length (group_rows group_col (group_a rep) clean)
                   + length (group_rows group_col (group_b rep) clean)
                   = length clean)%nat).
  { apply two_labels_partition; [exact Hne|].
    intros r Hin. unfold clean, df_clean in Hin. apply filter_In in Hin.
    destruct Hin as [Hin _].
    assert (Hl : In (group_col r) (unique (map group_col df_raw))).
    { apply unique_In. apply in_map. exact Hin. }
    rewrite Hu in Hl. destruct Hl as [Hl|[Hl|[]]]; auto. }
  assert (Hle : (length clean <= length df_raw)%nat).
  { apply Subseq_length. unfold clean, df_clean. apply filter_Subseq. }
  rewrite Ha, Hb, Hsize, Hrem. unfold removed_count. fold clean.
  repeat split; lia.
Qed.

Lemma df_clean_all_removed (df : list Row) (t : Z) :
  (forall r, In r df -> inject_Z t <= continuous_col r) ->
  df_clean continuous_col df t = [].
Proof.
  unfold df_clean. induction df as [|r l IH]; intro Hall; simpl; [reflexivity|].
  assert (Hr : Qlt_bool (continuous_col r) (inject_Z t) = false).
  { apply Qlt_bool_false_iff. apply Hall. left. reflexivity. }
  rewrite Hr. apply IH. intros r' Hr'. apply Hall. right. exact Hr'.
Qed.

(** X8. A threshold at or below every value of the column leaves no row,
    and the page then ends in the [KeyError] of group A's rate; the
    lowest position of the slider, [int(min)], is such a threshold when
    the column has no negative value. *)
Theorem threshold_below_every_value
    (mannwhitneyu : list Q -> list Q -> option (num * num))
    (df_raw : list Row) (moved : option Z) (s : Session) :
  (forall a b t,
     validate_groups group_col df_raw = Ok (a, b) ->
     threshold_slider continuous_col Series_quantile df_raw moved = Ok t ->
     (forall r, In r df_raw -> inject_Z t <= continuous_col r) ->
     page mannwhitneyu df_raw moved s = (Failed (KeyError a), s)) /\
  (forall mn,
     series_min (map continuous_col df_raw) = Some mn -> 0 <= mn ->
     forall r, In r df_raw -> inject_Z (int mn) <= continuous_col r).
Proof.
  split.
  - intros a b t Hv Ht Hall. unfold page, analyse. rewrite Hv, Ht.
    rewrite (df_clean_all_removed _ _ Hall). reflexivity.
  - intros mn Hmn H0 r Hr.
    apply Qle_trans with mn.
    + rewrite (int_nonneg _ H0). apply Qfloor_le.
    + eapply series_min_lower; [exact Hmn|]. apply in_map. exact Hr.
Qed.

(** X9. The rank test is never given an empty sample: two rank tests
    that agree on every pair of non-empty samples give the same run of
    the page, whatever either does on an empty one. *)
Theorem rank_test_never_sees_empty_sample
    (mwu1 mwu2 : list Q -> list Q -> option (num * num))
    (df_raw : list Row) (moved : option Z) (s : Session) :
  (forall x y, x <> [] -> y <> [] -> mwu1 x y = mwu2 x y) ->
  page mwu1 df_raw moved s = page mwu2 df_raw moved s.
Proof.
  intro Hagree. unfold page, analyse.
  destruct (validate_groups group_col df_raw) as [[a b]|e]; [|reflexivity].
  destruct (threshold_slider continuous_col Series_quantile df_raw moved) as [t|e];
    [|reflexivity].
  destruct (raw_rates group_col metric_col _ a b) as [[ra rb]|e] eqn:Er;
    [|reflexivity].
  destruct (run_bootstrapping Row_eq_dec group_name metric_name group_col metric_col _ a b _ s)
    as [[boot|e] s1]; [|reflexivity].
  rewrite raw_rates_eq in Er.
  destruct (mem a (map group_col (df_clean continuous_col df_raw t)))
    eqn:Ea; [|discriminate].
  destruct (mem b (map group_col (df_clean continuous_col df_raw t)))
    eqn:Eb; [|discriminate].
  apply occurs_iff_mem, occurs_iff_rows in Ea, Eb.
  unfold rank_test. rewrite Hagree; [reflexivity| |].
  - intro E. apply Ea. apply (f_equal (@length Q)) in E.
    rewrite length_map in E. exact E.
  - intro E. apply Eb. apply (f_equal (@length Q)) in E.
    rewrite length_map in E. exact E.
Qed.

End PageMore.

Lemma report_sizes_add_up_witness :
  exists rep,
    fst (analyse Player_eq_dec "version"%string "retention_7"%string version retention_7 sum_gamerounds quantile mwu_stub
           five_players None (fresh counting)) = Ok rep /\
    cleaned_size rep = 4%nat /\ removed rep = 1%Z /\
    (size_a rep + size_b rep = cleaned_size rep)%nat /\
    (removed rep + Z.of_nat (cleaned_size rep)
     = Z.of_nat (length five_players))%Z.
Proof.
  destruct (analyse Player_eq_dec "version"%string "retention_7"%string version retention_7 sum_gamerounds quantile mwu_stub
              five_players None (fresh counting))
    as [[rep|e] s'] eqn:E.
  - exists rep. split; [reflexivity|].
    destruct (report_sizes_add_up Player_eq_dec "version"%string "retention_7"%string version retention_7
                sum_gamerounds quantile mwu_stub five_players None
                (fresh counting) s' rep E) as (_ & _ & H1 & _ & H2).
    split; [vm_compute in E; injection E as <- _; reflexivity|].
    split; [vm_compute in E; injection E as <- _; reflexivity|].
    split; assumption.
  - exfalso. vm_compute in E. discriminate.
Defined.

Lemma threshold_below_every_value_witness :
  analyse Player_eq_dec "version"%string "retention_7"%string version retention_7 sum_gamerounds quantile mwu_stub
          two_players (Some 10%Z) (fresh counting)
  = (Failed (KeyError gate_30), fresh counting) /\
  (forall r, In r two_players ->
     inject_Z (int (inject_Z 10)) <= sum_gamerounds r).
Proof.
  split.
  - apply (proj1 (threshold_below_every_value Player_eq_dec "version"%string "retention_7"%string
                    version retention_7 sum_gamerounds quantile mwu_stub two_players
                    (Some 10%Z) (fresh counting)) gate_30 gate_40 10%Z).
    + vm_compute. reflexivity.
    + vm_compute. reflexivity.
    + intros r [<-|[<-|[]]]; vm_compute; discriminate.
  - apply (proj2 (threshold_below_every_value Player_eq_dec "version"%string "retention_7"%string
                    version retention_7 sum_gamerounds quantile mwu_stub two_players
                    (Some 10%Z) (fresh counting)) (inject_Z 10)).
    + vm_compute. reflexivity.
    + vm_compute. discriminate.
Defined.

Lemma rank_test_never_sees_empty_sample_witness :
  analyse Player_eq_dec "version"%string "retention_7"%string version retention_7 sum_gamerounds quantile mwu_stub
          two_players (Some 15%Z) (fresh counting)
  = analyse Player_eq_dec "version"%string "retention_7"%string version retention_7 sum_gamerounds quantile
            (fun _ _ => Some (fin 0, fin 1))
            two_players (Some 15%Z) (fresh counting).
Proof.
  apply rank_test_never_sees_empty_sample.
  intros [|x xs] [|y ys] Hx Hy; try contradiction; reflexivity.
Defined.


(** ** The cache in front of the bootstrap *)

Section CacheMore.

Context {Row : Type}.
Variable Row_eq_dec : forall x y : Row, {x = y} + {x <> y}.
Variable group_name metric_name : string.
Variable group_col : Row -> Label.
Variable metric_col : Row -> Q.
Variable continuous_col : Row -> Q.
Variable Series_quantile : list Q -> Q -> option Q.
Variable mannwhitneyu : list Q -> list Q -> option (num * num).

Let run := run_bootstrapping Row_eq_dec group_name metric_name group_col metric_col.

Lemma cache_lookup_head (k : CacheKey) (v : list Q)
    (c : list (CacheKey * list Q)) :
  cache_lookup Row_eq_dec k ((k, v) :: c) = Some v.
Proof.
  simpl. destruct (CacheKey_eq_dec Row_eq_dec k k); congruence.
Qed.

Lemma run_bootstrapping_stores (df : list Row) (a b : Label) (n : nat)
    (s s' : Session) (d : list Q) :
  run df a b n s = (Ok d, s') ->
  cache_lookup Row_eq_dec (df, group_name, metric_name, a, b, n) (cache s') = Some d.
Proof.
  unfold run, run_bootstrapping. cbv zeta. plain_frames.
  destruct (cache_lookup Row_eq_dec (df, group_name, metric_name, a, b, n) (cache s)) as [stored|] eqn:E.
  - intro H. injection H as <- <-. exact E.
  - destruct (run_bootstrapping_body group_col metric_col df a b n (rng s))
      as [[d'|e] g']; intro H; [|discriminate].
    injection H as <- <-. simpl. apply cache_lookup_head.
Qed.

Lemma run_bootstrapping_again (df : list Row) (a b : Label) (n : nat)
    (s s' : Session) (d : list Q) :
  run df a b n s = (Ok d, s') -> run df a b n s' = (Ok d, s').
Proof.
  intro H. apply run_bootstrapping_stores in H.
  unfold run. apply run_bootstrapping_hit. exact H.
Qed.

(** X10. A distribution that a call returned is stored: calling again
    with the same arguments in the session it left returns the same
    distribution and changes nothing, not even the generator.  A call
    that failed stored nothing. *)
Theorem cached_run_is_replayed (df : list Row) (a b : Label) (n : nat)
    (s s' : Session) :
  (forall d, run df a b n s = (Ok d, s') -> run df a b n s' = (Ok d, s')) /\
  (forall e, run df a b n s = (Failed e, s') -> cache s' = cache s).
Proof.
  split.
  - intros d H. exact (run_bootstrapping_again df a b n s s' d H).
  - intro e. unfold run, run_bootstrapping. cbv zeta. plain_frames.
    destruct (cache_lookup Row_eq_dec (df, group_name, metric_name, a, b, n) (cache s)); [discriminate|].
    destruct (run_bootstrapping_body group_col metric_col df a b n (rng s))
      as [[d'|e'] g']; intro H; [discriminate|].
    injection H as _ <-. reflexivity.
Qed.

(** X11. A completed run of the page can be repeated: run again on the
    same table with the same slider position in the session it left, the
    page returns the same report, bootstrap distribution included, and
    leaves the session unchanged. *)
Theorem page_rerun_is_stable (df_raw : list Row) (moved : option Z)
    (s s' : Session) (rep : Report) :
  analyse Row_eq_dec group_name metric_name group_col metric_col
          continuous_col Series_quantile mannwhitneyu
          df_raw moved s = (Ok rep, s') ->
  analyse Row_eq_dec group_name metric_name group_col metric_col
          continuous_col Series_quantile mannwhitneyu
          df_raw moved s' = (Ok rep, s').
Proof.
  unfold analyse.
  destruct (validate_groups group_col df_raw) as [[a b]|e]; [|discriminate].
  destruct (threshold_slider continuous_col Series_quantile df_raw moved) as [t|e];
    [|discriminate].
  destruct (raw_rates group_col metric_col _ a b) as [[ra rb]|e];
    [|discriminate].
  destruct (run_bootstrapping Row_eq_dec group_name metric_name group_col metric_col _ a b _ s)
    as [[boot|e] s1] eqn:Eb; [|discriminate].
  destruct (rank_test group_col continuous_col mannwhitneyu _ a b)
    as [[u p]|e]; [|discriminate].
  intro H. injection H as <- <-.
  pose proof (run_bootstrapping_again _ a b _ s s1 boot Eb) as Hagain.
  unfold run in Hagain. rewrite Hagain. reflexivity.
Qed.

End CacheMore.

Lemma cached_run_is_replayed_witness :
  exists d s',
    run_bootstrapping Player_eq_dec "version"%string "retention_7"%string version retention_7 four_players
      gate_30 gate_40 2 (fresh skewed) = (Ok d, s') /\
    run_bootstrapping Player_eq_dec "version"%string "retention_7"%string version retention_7 four_players
      gate_30 gate_40 2 s' = (Ok d, s').
Proof.
  destruct (run_bootstrapping Player_eq_dec "version"%string "retention_7"%string version retention_7 four_players
              gate_30 gate_40 2 (fresh skewed)) as [[d|e] s'] eqn:E.
  - exists d, s'. split; [reflexivity|].
    apply (proj1 (cached_run_is_replayed Player_eq_dec "version"%string "retention_7"%string version retention_7
                    four_players gate_30 gate_40 2 (fresh skewed) s') d E).
  - exfalso. vm_compute in E. discriminate.
Defined.

Lemma page_rerun_is_stable_witness :
  exists rep s',
    analyse Player_eq_dec "version"%string "retention_7"%string version retention_7 sum_gamerounds quantile mwu_stub
            five_players None (fresh counting) = (Ok rep, s') /\
    analyse Player_eq_dec "version"%string "retention_7"%string version retention_7 sum_gamerounds quantile mwu_stub
            five_players None s' = (Ok rep, s').
Proof.
  destruct (analyse Player_eq_dec "version"%string "retention_7"%string version retention_7 sum_gamerounds quantile mwu_stub
              five_players None (fresh counting))
    as [[rep|e] s'] eqn:E.
  - exists rep, s'. split; [reflexivity|].
    apply (page_rerun_is_stable Player_eq_dec "version"%string "retention_7"%string version retention_7
             sum_gamerounds quantile mwu_stub five_players None
             (fresh counting) s' rep E).
  - exfalso. vm_compute in E. discriminate.
Defined.


(** ** More on the slider *)

Lemma insert_sorted_not_nil (x : Q) (l : list Q) : insert_sorted x l <> [].
Proof. destruct l as [|y t]; simpl; [|destruct (Qle_bool x y)]; discriminate. Qed.

Lemma quantile_defined (xs : list Q) (q : Q) :
  xs <> [] -> exists v, quantile xs q = Some v.
Proof.
  intro Hne. unfold quantile.
  destruct (sort_values xs) as [|x0 rest] eqn:E.
  - destruct xs as [|x t]; [contradiction|]. simpl in E.
    exfalso. exact (insert_sorted_not_nil _ _ E).
  - eexists. reflexivity.
Qed.

Section SliderMore.

Context {Row : Type}.
Variable continuous_col : Row -> Q.
Variable Series_quantile : list Q -> Q -> option Q.

(** X12. When some value of the column exceeds 3000, the slider is
    created with the value 3000 whatever the 99th percentile is.  Left
    alone it stands at 3000, provided its two bounds are browser integers
    and do not both equal 3000; when the smallest and the largest value
    both cut down to 3000 the slider refuses its range. *)
Theorem slider_default_3000 (df_raw : list Row) (q99 mn mx : Q) :
  Series_quantile (map continuous_col df_raw) (99 # 100) = Some q99 ->
  series_min (map continuous_col df_raw) = Some mn ->
  series_max (map continuous_col df_raw) = Some mx ->
  inject_Z 3000 < mx ->
  ((int mn < 3000 \/ 3000 < int mx)%Z ->
   (- js_max_safe <= int mn)%Z -> (int mx <= js_max_safe)%Z ->
   threshold_slider continuous_col Series_quantile df_raw None = Ok 3000%Z) /\
  (int mn = 3000%Z -> int mx = 3000%Z ->
   forall moved,
     threshold_slider continuous_col Series_quantile df_raw moved
     = Failed SliderRange).
Proof.
  intros Hq Hmn Hmx Hlt.
  assert (Hargs : slider_args (Series_quantile (map continuous_col df_raw)
                                 (99 # 100)) (map continuous_col df_raw)
                  = Ok (int mn, int mx, 3000%Z)).
  { unfold slider_args. rewrite Hq, Hmn, Hmx.
    pose proof Hlt as Hb. apply Qlt_bool_iff in Hb. rewrite Hb. reflexivity. }
  assert (Hup : (3000 <= int mx)%Z).
  { change 3000%Z with (int (inject_Z 3000)) at 1. apply int_monotone.
    apply Qlt_le_weak. exact Hlt. }
  assert (Hord : (int mn <= int mx)%Z).
  { apply int_monotone.
    destruct (map continuous_col df_raw) as [|x t] eqn:E; [discriminate|].
    apply Qle_trans with x.
    - eapply series_min_lower; [exact Hmn | left; reflexivity].
    - eapply series_max_upper; [exact Hmx | left; reflexivity]. }
  split.
  - intros Hne Hlow Hhigh. unfold threshold_slider. rewrite Hargs. simpl.
    apply st_slider_untouched; try assumption; unfold js_max_safe in *; lia.
  - intros E1 E2 moved. unfold threshold_slider. rewrite Hargs. simpl.
    rewrite E1, E2. apply st_slider_single_point.
Qed.

(** X13. When even the smallest value of the column, cut to an integer,
    exceeds 3000, the slider is still created with the value 3000 and
    widens its range down to it: left alone it returns 3000, a threshold
    that removes every row, and any position between 3000 and the largest
    value can be chosen. *)
Theorem slider_widened_to_3000 (df_raw : list Row) (q99 mn mx : Q) :
  Series_quantile (map continuous_col df_raw) (99 # 100) = Some q99 ->
  series_min (map continuous_col df_raw) = Some mn ->
  series_max (map continuous_col df_raw) = Some mx ->
  (3000 < int mn)%Z -> (int mx <= js_max_safe)%Z ->
  threshold_slider continuous_col Series_quantile df_raw None = Ok 3000%Z /\
  (forall t, (3000 <= t <= int mx)%Z ->
     threshold_slider continuous_col Series_quantile df_raw (Some t) = Ok t) /\
  df_clean continuous_col df_raw 3000 = [].
Proof.
  intros Hq Hmn Hmx Hhigh Hjs.
  assert (Hmn0 : 0 <= mn).
  { destruct (Qlt_le_dec mn 0) as [Hneg|Hpos]; [|exact Hpos]. exfalso.
    assert (H : (int mn <= int 0)%Z)
      by (apply int_monotone, Qlt_le_weak; exact Hneg).
    change (int 0) with 0%Z in H. lia. }
  assert (Hlow : inject_Z 3000 < mn).
  { apply Qlt_le_trans with (inject_Z (int mn)).
    - rewrite <- Zlt_Qlt. exact Hhigh.
    - rewrite (int_nonneg _ Hmn0). apply Qfloor_le. }
  assert (Hle : mn <= mx).
  { destruct (map continuous_col df_raw) as [|x t] eqn:E; [discriminate|].
    apply Qle_trans with x.
    - eapply series_min_lower; [exact Hmn | left; reflexivity].
    - eapply series_max_upper; [exact Hmx | left; reflexivity]. }
  assert (Hbig : inject_Z 3000 < mx) by (eapply Qlt_le_trans; eassumption).
  assert (Hord : (int mn <= int mx)%Z) by (apply int_monotone; exact Hle).
  assert (Hargs : slider_args (Series_quantile (map continuous_col df_raw)
                                 (99 # 100)) (map continuous_col df_raw)
                  = Ok (int mn, int mx, 3000%Z)).
  { unfold slider_args. rewrite Hq, Hmn, Hmx.
    pose proof Hbig as Hb. apply Qlt_bool_iff in Hb. rewrite Hb. reflexivity. }
  split; [|split].
  - unfold threshold_slider. rewrite Hargs. simpl.
    apply st_slider_untouched; try assumption; unfold js_max_safe in *; lia.
  - intros t Ht. unfold threshold_slider. rewrite Hargs. simpl.
    rewrite st_slider_accepts
      by (try assumption; unfold js_max_safe in *; lia).
    assert (E1 : (Z.min 3000 (int mn) <=? t)%Z = true)
      by (apply Z.leb_le; lia).
    assert (E2 : (t <=? Z.max 3000 (int mx))%Z = true)
      by (apply Z.leb_le; lia).
    rewrite E1, E2. reflexivity.
  - unfold df_clean.
    assert (Hall : forall r, In r df_raw -> inject_Z 3000 <= continuous_col r).
    { intros r Hr. apply Qlt_le_weak. apply Qlt_le_trans with mn; [exact Hlow|].
      eapply series_min_lower; [exact Hmn|]. apply in_map. exact Hr. }
    clear - Hall. induction df_raw as [|r l IH]; simpl; [reflexivity|].
    assert (Hr : Qlt_bool (continuous_col r) (inject_Z 3000) = false).
    { apply Qlt_bool_false_iff. apply Hall. left. reflexivity. }
    rewrite Hr. apply IH. intros r' Hr'. apply Hall. right. exact Hr'.
Qed.

End SliderMore.

Lemma slider_default_3000_witness :
  threshold_slider sum_gamerounds quantile five_players None = Ok 3000%Z.
Proof.
  refine (proj1 (slider_default_3000 sum_gamerounds quantile five_players
                   _ (inject_Z 10) (inject_Z 5000) _ _ _ _) _ _ _).
  - vm_compute. reflexivity.
  - vm_compute. reflexivity.
  - vm_compute. reflexivity.
  - reflexivity.
  - left. vm_compute. reflexivity.
  - vm_compute. discriminate.
  - vm_compute. discriminate.
Defined.

Lemma slider_widened_to_3000_witness :
  threshold_slider sum_gamerounds quantile
    [player 1 gate_30 4000 1; player 2 gate_40 5000 0] None = Ok 3000%Z /\
  threshold_slider sum_gamerounds quantile
    [player 1 gate_30 4000 1; player 2 gate_40 5000 0] (Some 4500%Z)
  = Ok 4500%Z /\
  df_clean sum_gamerounds
    [player 1 gate_30 4000 1; player 2 gate_40 5000 0] 3000 = [].
Proof.
  assert (H : forall q99,
             quantile (map sum_gamerounds
                         [player 1 gate_30 4000 1; player 2 gate_40 5000 0])
                      (99 # 100) = Some q99 ->
             threshold_slider sum_gamerounds quantile
               [player 1 gate_30 4000 1; player 2 gate_40 5000 0] None
             = Ok 3000%Z /\
             (forall t, (3000 <= t <= int (inject_Z 5000))%Z ->
                threshold_slider sum_gamerounds quantile
                  [player 1 gate_30 4000 1; player 2 gate_40 5000 0] (Some t)
                = Ok t) /\
             df_clean sum_gamerounds
               [player 1 gate_30 4000 1; player 2 gate_40 5000 0] 3000 = []).
  { intros q99 Hq.
    apply (slider_widened_to_3000 sum_gamerounds quantile
             [player 1 gate_30 4000 1; player 2 gate_40 5000 0]
             q99 (inject_Z 4000) (inject_Z 5000) Hq).
    - vm_compute. reflexivity.
    - vm_compute. reflexivity.
    - vm_compute. reflexivity.
    - vm_compute. discriminate. }
  destruct (H _ eq_refl) as (H1 & H2 & H3).
  split; [exact H1|]. split; [|exact H3].
  apply H2. split; vm_compute; discriminate.
Defined.


(** ** More on the bootstrap *)

Lemma Qsum_between (xs : list Q) (lo hi : Q) :
  Forall (fun x => lo <= x <= hi) xs ->
  inject_Z (Z.of_nat (length xs)) * lo <= Qsum xs
  <= inject_Z (Z.of_nat (length xs)) * hi.
Proof.
  induction 1 as [|x xs Hx _ IH]; simpl Qsum.
  - simpl. split; rewrite Qmult_0_l; apply Qle_refl.
  - cbn [length]. rewrite Nat2Z.inj_succ. unfold Z.succ.
    rewrite inject_Z_plus. change (inject_Z 1) with 1.
    generalize dependent (inject_Z (Z.of_nat (length xs))). intros M IH.
    setoid_replace ((M + 1) * lo) with (M * lo + lo) by ring.
    setoid_replace ((M + 1) * hi) with (M * hi + hi) by ring.
    lra.
Qed.

Lemma mean_between (xs : list Q) (lo hi : Q) :
  xs <> [] -> Forall (fun x => lo <= x <= hi) xs -> lo <= mean xs <= hi.
Proof.
  intros Hne Hall. unfold mean.
  assert (Hn : 0 < inject_Z (Z.of_nat (length xs))).
  { apply inject_nat_pos. destruct xs; [contradiction | simpl; lia]. }
  destruct (Qsum_between xs lo hi Hall) as [H1 H2]. split.
  - apply Qle_shift_div_l; [exact Hn|]. rewrite Qmult_comm. exact H1.
  - apply Qle_shift_div_r; [exact Hn|]. rewrite Qmult_comm. exact H2.
Qed.

Section BootstrapMore.

Context {Row : Type}.
Variable group_col : Row -> Label.
Variable metric_col : Row -> Q.

Let body := run_bootstrapping_body group_col metric_col.
Let mean_in := group_mean group_col metric_col.

Lemma sample_In (df : list Row) (g : Generator) (r : Row) :
  In r (fst (sample df g)) -> In r df.
Proof.
  unfold sample. simpl. intro H. apply in_flat_map in H.
  destruct H as (i & _ & Hr).
  destruct (nth_error df i) as [r'|] eqn:E; [|contradiction].
  destruct Hr as [<-|[]]. eapply nth_error_In. exact E.
Qed.

(** X14. A resample has as many rows as the table it is drawn from, and
    each of its rows is a row of that table; so a label that occurs in a
    resample occurs in the table. *)
Theorem resample_rows (df : list Row) (g : Generator) (i : nat) :
  length (resample_at df g i) = length df /\
  (forall r, In r (resample_at df g i) -> In r df) /\
  (forall label, occurs group_col label (resample_at df g i) ->
                 occurs group_col label df).
Proof.
  unfold resample_at. split; [apply sample_length|]. split.
  - intros r. apply sample_In.
  - intros label (r & Hin & Hr). exists r. split; [|exact Hr].
    eapply sample_In. exact Hin.
Qed.

Lemma run_body_rounds_ok (df : list Row) (a b : Label) (n : nat)
    (g : Generator) (ds : list Q) :
  fst (body df a b n g) = Ok ds ->
  forall i, (i < n)%nat ->
    occurs group_col a (resample_at df g i) /\
    occurs group_col b (resample_at df g i).
Proof.
  intros Hrun i Hi.
  destruct (occurs_dec group_col a (resample_at df g i)) as [Ha|Ha];
    [destruct (occurs_dec group_col b (resample_at df g i)) as [Hb|Hb]|];
    [tauto| |]; exfalso;
    (destruct (boot_loop_aborts group_col metric_col df a b n [] g)
       as (key & _ & Hfail);
     [exists i; split; [exact Hi | tauto]
     | unfold body, run_bootstrapping_body in Hrun; rewrite Hfail in Hrun;
       discriminate]).
Qed.

Lemma run_body_formula (df : list Row) (a b : Label) (n : nat)
    (g : Generator) (ds : list Q) :
  fst (body df a b n g) = Ok ds ->
  length ds = n /\
  forall i d, nth_error ds i = Some d ->
    d = mean_in a (resample_at df g i) - mean_in b (resample_at df g i).
Proof.
  intro Hrun. pose proof (run_body_rounds_ok _ _ _ _ _ _ Hrun) as Hok.
  assert (Hdiff : forall i, (i < n)%nat ->
            boot_diff group_col metric_col (resample_at df g i) a b
            = Ok (mean_in a (resample_at df g i)
                  - mean_in b (resample_at df g i))).
  { intros i Hi. destruct (Hok i Hi) as [Ha Hb].
    apply occurs_iff_mem in Ha, Hb.
    rewrite boot_diff_eq, Ha, Hb. reflexivity. }
  destruct (boot_loop_complete group_col metric_col df a b n [] g)
    as (ds0 & Hds & Hlen & Hnth).
  { intros i Hi. eexists. apply Hdiff. exact Hi. }
  simpl in Hds. unfold body, run_bootstrapping_body in Hrun.
  rewrite Hds in Hrun. injection Hrun as <-.
  split; [exact Hlen|]. intros i d Hd.
  assert (Hlt : (i < n)%nat).
  { rewrite <- Hlen. apply nth_error_Some. congruence. }
  apply Hnth in Hd. rewrite (Hdiff i Hlt) in Hd. congruence.
Qed.

(** X15. A table that lacks a row of group A or of group B cannot be
    bootstrapped: with at least one iteration the run ends in the
    [KeyError] of the first round.  An empty table is such a table. *)
Theorem run_fails_without_group (df : list Row) (a b : Label) (n : nat)
    (g : Generator) :
  ~ occurs group_col a df \/ ~ occurs group_col b df ->
  (0 < n)%nat ->
  exists key, (key = a \/ key = b) /\ fst (body df a b n g) = Failed (KeyError key).
Proof.
  intros Hmiss Hn. unfold body, run_bootstrapping_body.
  apply boot_loop_aborts. exists 0%nat. split; [exact Hn|].
  destruct Hmiss as [H|H]; [left|right]; intro Hocc; apply H;
    destruct Hocc as (r & Hin & Hr); exists r; (split; [|exact Hr]);
    unfold resample_at in Hin; eapply sample_In; exact Hin.
Qed.

(** X16. For a metric whose every value is 0 or 1, as a retention flag
    is, every difference of a returned distribution lies between -1 and
    1. *)
Theorem bootstrap_differences_bounded (df : list Row) (a b : Label) (n : nat)
    (g : Generator) (ds : list Q) :
  (forall r, In r df -> metric_col r == 0 \/ metric_col r == 1) ->
  fst (body df a b n g) = Ok ds ->
  Forall (fun d => - (1) <= d <= 1) ds.
Proof.
  intros Hflag Hrun. apply Forall_forall. intros d Hd.
  apply In_nth_error in Hd. destruct Hd as [i Hi].
  destruct (run_body_formula _ _ _ _ _ _ Hrun) as [Hlen Hnth].
  assert (Hlt : (i < n)%nat).
  { rewrite <- Hlen. apply nth_error_Some. congruence. }
  destruct (run_body_rounds_ok _ _ _ _ _ _ Hrun i Hlt) as [Ha Hb].
  rewrite (Hnth i d Hi). unfold mean_in.
  assert (Hmean : forall label, occurs group_col label (resample_at df g i) ->
            0 <= group_mean group_col metric_col label (resample_at df g i)
            <= 1).
  { intros label Hocc. unfold group_mean. apply mean_between.
    - apply occurs_iff_rows in Hocc. intro E. apply Hocc.
      apply (f_equal (@length Q)) in E. rewrite length_map in E. exact E.
    - apply Forall_forall. intros x Hx. apply in_map_iff in Hx.
      destruct Hx as (r & <- & Hr).
      unfold group_rows in Hr. apply filter_In in Hr. destruct Hr as [Hr _].
      unfold resample_at in Hr. apply sample_In in Hr.
      destruct (Hflag r Hr) as [E|E]; rewrite E; split; discriminate. }
  pose proof (Hmean a Ha). pose proof (Hmean b Hb). lra.
Qed.

(** X17. Which label is taken as group A decides the sign of every
    difference: on the same table and the same draws, the run with the two
    labels exchanged returns, round by round, the opposite differences. *)
Theorem swapped_labels_negate (df : list Row) (a b : Label) (n : nat)
    (g : Generator) (ds : list Q) :
  fst (body df a b n g) = Ok ds ->
  exists ds',
    fst (body df b a n g) = Ok ds' /\ length ds' = length ds /\
    forall i d d', nth_error ds i = Some d -> nth_error ds' i = Some d' ->
                   d' == - d.
Proof.
  intro Hrun.
  pose proof (run_body_rounds_ok _ _ _ _ _ _ Hrun) as Hok.
  destruct (run_body_formula _ _ _ _ _ _ Hrun) as [Hlen Hnth].
  destruct (boot_loop_complete group_col metric_col df b a n [] g)
    as (ds' & Hrun' & Hlen' & _).
  { intros i Hi. destruct (Hok i Hi) as [Ha Hb].
    apply occurs_iff_mem in Ha, Hb.
    rewrite boot_diff_eq, Ha, Hb. eexists. reflexivity. }
  simpl in Hrun'. exists ds'. split; [exact Hrun'|]. split; [congruence|].
  intros i d d' Hd Hd'.
  assert (Hrun'' : fst (body df b a n g) = Ok ds') by exact Hrun'.
  destruct (run_body_formula _ _ _ _ _ _ Hrun'') as [_ Hnth'].
  rewrite (Hnth i d Hd), (Hnth' i d' Hd'). ring.
Qed.

End BootstrapMore.

Lemma run_fails_without_group_witness :
  exists key, (key = gate_30 \/ key = gate_40) /\
    fst (run_bootstrapping_body version retention_7 [] gate_30 gate_40
           3 counting) = Failed (KeyError key).
Proof.
  apply (run_fails_without_group version retention_7 [] gate_30 gate_40
           3 counting).
  - left. intros (r & [] & _).
  - lia.
Defined.

Lemma bootstrap_differences_bounded_witness :
  exists ds,
    fst (run_bootstrapping_body version retention_7 four_players
           gate_30 gate_40 2 skewed) = Ok ds /\
    Forall (fun d => - (1) <= d <= 1) ds.
Proof.
  destruct (fst (run_bootstrapping_body version retention_7 four_players
                   gate_30 gate_40 2 skewed)) as [ds|e] eqn:E.
  - exists ds. split; [reflexivity|].
    apply (bootstrap_differences_bounded version retention_7 four_players
             gate_30 gate_40 2 skewed ds); [|exact E].
    intros r [<-|[<-|[<-|[<-|[]]]]]; vm_compute; auto.
  - exfalso. vm_compute in E. discriminate.
Defined.

Lemma swapped_labels_negate_witness :
  exists ds ds',
    fst (run_bootstrapping_body version retention_7 four_players
           gate_30 gate_40 2 skewed) = Ok ds /\
    fst (run_bootstrapping_body version retention_7 four_players
           gate_40 gate_30 2 skewed) = Ok ds' /\
    length ds' = length ds.
Proof.
  destruct (fst (run_bootstrapping_body version retention_7 four_players
                   gate_30 gate_40 2 skewed)) as [ds|e] eqn:E.
  - destruct (swapped_labels_negate version retention_7 four_players
                gate_30 gate_40 2 skewed ds E) as (ds' & H1 & H2 & _).
    exists ds, ds'. split; [reflexivity|]. split; assumption.
  - exfalso. vm_compute in E. discriminate.
Defined.



(** ** Row order *)

Lemma Qsum_Permutation (xs ys : list Q) :
  Permutation xs ys -> Qsum xs == Qsum ys.
Proof.
  induction 1 as [|x l l' _ IH|x y l|l l' l'' _ IH1 _ IH2]; simpl.
  - reflexivity.
  - rewrite IH. reflexivity.
  - ring.
  - rewrite IH1. exact IH2.
Qed.

Lemma filter_Permutation {A : Type} (f : A -> bool) (l l' : list A) :
  Permutation l l' -> Permutation (filter f l) (filter f l').
Proof.
  induction 1 as [|x l l' _ IH|x y l|l l' l'' _ IH1 _ IH2]; simpl.
  - constructor.
  - destruct (f x); [constructor|]; exact IH.
  - destruct (f x); destruct (f y); try apply Permutation_refl.
    apply perm_swap.
  - eapply Permutation_trans; eassumption.
Qed.

Section RowOrder.

Context {Row : Type}.
Variable group_col : Row -> Label.
Variable metric_col : Row -> Q.
Variable continuous_col : Row -> Q.

(** X18. The order of the rows matters only through which label is met
    first: reordering the table changes neither the size of a group, nor
    the metric values of a group (up to order), nor the rows that pass
    the filter (up to order), nor the removed count. *)
Theorem row_order_irrelevant (df df' : list Row) (g : Label) (t : Z) :
  Permutation df df' ->
  length (group_rows group_col g df) = length (group_rows group_col g df') /\
  Permutation (map metric_col (group_rows group_col g df))
              (map metric_col (group_rows group_col g df')) /\
  Permutation (df_clean continuous_col df t) (df_clean continuous_col df' t) /\
  removed_count continuous_col df t = removed_count continuous_col df' t.
Proof.
  intro Hperm.
  assert (Hrows : Permutation (group_rows group_col g df)
                              (group_rows group_col g df')).
  { unfold group_rows. apply filter_Permutation. exact Hperm. }
  assert (Hclean : Permutation (df_clean continuous_col df t)
                               (df_clean continuous_col df' t)).
  { unfold df_clean. apply filter_Permutation. exact Hperm. }
  split; [apply Permutation_length; exact Hrows|].
  split; [apply Permutation_map; exact Hrows|].
  split; [exact Hclean|]. unfold removed_count.
  rewrite (Permutation_length Hperm), (Permutation_length Hclean).
  reflexivity.
Qed.

End RowOrder.

Lemma row_order_irrelevant_witness :
  length (group_rows version gate_40 five_players)
  = length (group_rows version gate_40 (rev five_players)) /\
  length (group_rows version gate_40 five_players) = 3%nat /\
  removed_count sum_gamerounds five_players 3000
  = removed_count sum_gamerounds (rev five_players) 3000 /\
  removed_count sum_gamerounds five_players 3000 = 1%Z.
Proof.
  destruct (row_order_irrelevant version retention_7 sum_gamerounds
              five_players (rev five_players) gate_40 3000
              (Permutation_rev five_players)) as (H1 & _ & _ & H4).
  split; [exact H1|]. split; [reflexivity|]. split; [exact H4|].
  vm_compute. reflexivity.
Defined.


(** ** Preselected columns *)

Lemma list_index_found (x : string) (l : list string) :
  In x l ->
  exists i, list_index x l = Some i /\ nth_error l i = Some x /\
            forall j, (j < i)%nat -> nth_error l j <> Some x.
Proof.
  induction l as [|y l IH]; intro Hin; [contradiction|]. simpl.
  unfold label_eqb. destruct (String.eqb y x) eqn:E.
  - apply String.eqb_eq in E. subst. exists 0%nat.
    repeat split. intros j Hj. lia.
  - apply String.eqb_neq in E. destruct Hin as [Hin|Hin]; [contradiction|].
    destruct (IH Hin) as (i & Hi & Hnth & Hfirst). exists (S i).
    rewrite Hi. repeat split; [exact Hnth|].
    intros [|j] Hj; simpl; [congruence|]. apply Hfirst. lia.
Qed.

Lemma preselected_spec (name : string) (options : list string) :
  (In name options ->
   exists i, preselected name options = Some i /\
             nth_error options i = Some name /\
             forall j, (j < i)%nat -> nth_error options j <> Some name) /\
  (~ In name options -> preselected name options = Some 0%nat).
Proof.
  unfold preselected. split; intro H.
  - pose proof H as Hm. apply mem_iff in Hm. rewrite Hm.
    apply list_index_found. exact H.
  - apply mem_false_iff in H. rewrite H. reflexivity.
Qed.

(** X19. Computing the preselected positions never raises.  The
    group column is preselected to [version] when the table has such a
    column, the primary metric to [retention_7] (not [retention_1]) and
    the continuous metric to [sum_gamerounds] when these are numeric or
    boolean columns; a name that is missing is replaced by the first
    option, so without both names the two metrics are preselected to the
    same column. *)
Theorem preselected_columns (h : Header) :
  (In default_group (columns h) ->
   exists i, g_idx h = Some i /\ nth_error (columns h) i = Some default_group) /\
  (~ In default_group (columns h) -> g_idx h = Some 0%nat) /\
  (In "retention_7"%string (numeric_cols h) ->
   exists i, m_idx h = Some i /\
             nth_error (numeric_cols h) i = Some "retention_7"%string) /\
  (In default_continuous (numeric_cols h) ->
   exists i, c_idx h = Some i /\
             nth_error (numeric_cols h) i = Some default_continuous) /\
  (~ In "retention_7"%string (numeric_cols h) -> m_idx h = Some 0%nat) /\
  (~ In default_continuous (numeric_cols h) -> c_idx h = Some 0%nat) /\
  (forall name, In name (numeric_cols h) <->
                exists d, In (name, d) h /\ d <> object).
Proof.
  unfold g_idx, m_idx, c_idx.
  change (nth 1 default_metrics EmptyString) with "retention_7"%string.
  repeat split.
  - intro H. destruct (proj1 (preselected_spec _ _) H) as (i & Hi & Hn & _).
    exists i. auto.
  - apply preselected_spec.
  - intro H. destruct (proj1 (preselected_spec _ _) H) as (i & Hi & Hn & _).
    exists i. auto.
  - intro H. destruct (proj1 (preselected_spec _ _) H) as (i & Hi & Hn & _).
    exists i. auto.
  - apply preselected_spec.
  - apply preselected_spec.
  - unfold numeric_cols. intro H. apply in_map_iff in H.
    destruct H as ([c d] & <- & Hin). apply filter_In in Hin.
    destruct Hin as [Hin Hd]. exists d. split; [exact Hin|].
    intros ->. discriminate.
  - intros (d & Hin & Hd). unfold numeric_cols. apply in_map_iff.
    exists (name, d). split; [reflexivity|]. apply filter_In.
    split; [exact Hin|]. destruct d; [reflexivity | reflexivity | contradiction].
Qed.


(** ** The delta under group B's rate *)

(** X20. The number shown as delta under group B's rate is always the
    rate of B minus the rate of A, and the plus sign is written exactly
    when that number is not negative. *)
Theorem rate_delta_is_b_minus_a (ra rb : Q) :
  snd (rate_delta (ra - rb)) == rb - ra /\
  (fst (rate_delta (ra - rb)) = true <-> 0 <= snd (rate_delta (ra - rb))).
Proof.
  unfold rate_delta. destruct (Qlt_bool 0 (ra - rb)) eqn:E; simpl.
  - apply Qlt_bool_iff in E. split; [ring|]. split; [discriminate|].
    intro H. exfalso. lra.
  - apply Qlt_bool_false_iff in E. 
    assert (Habs : Qabs (ra - rb) == rb - ra).
    { rewrite (Qabs_neg _ E). ring. }
    split; [exact Habs|]. split; [|reflexivity].
    intros _. rewrite Habs. lra.
Qed.
